(** * APIIngestor: retrying HTTP ingestion, pagination and batching

    A shallow embedding of [src/etl_project_youtube/backup.py] (class
    [APIIngestor]) and the properties of its four methods:
    [_make_request], [fetch_paginated], [fetch_incremental] and
    [batch_process].

    Python values are modelled as follows.
    - JSON values (what [response.json()] returns, and what parameter
      dictionaries hold) are the inductive type [json]; a JSON object is the
      list of its items in insertion order, its keys pairwise distinct.
    - A parameter dictionary is a [gmap string json]; dictionaries are mutable
      objects, so they live in a heap (a list indexed by location) and the
      methods receive references.
    - Integers are [Z]. The backoff factor is a finite float, given by its
      exact value in [Q]; the product of line 58 is a [pyfloat], an exact
      rational as long as it stays in the range of a double and an infinity
      beyond it, and the conversions that raise [OverflowError] or
      [ValueError] (integer to float, seconds to nanoseconds in [time.sleep])
      are modelled as such.
    - Strings are [string], sequences of 8-bit characters; iterating one
      yields its characters.
    - A response either carries the value its body parses to, or is
      [Undecodable], with the exception [response.json()] raises on it.
    - The network is a deterministic transition system chosen by the
      environment: a state type [W] and a function [http_get] answering each
      [requests.get] call.
    - Every side effect (HTTP call, log record, sleep) is appended to a
      chronological trace. *)

From Stdlib Require Import ZArith QArith Qabs Qround List String Ascii Lia.
From stdpp Require Import base option list gmap strings pretty.

Close Scope Q_scope.
Set Warnings "-register-all".
Local Open Scope string_scope.
Local Open Scope list_scope.
Local Open Scope Z_scope.

(** ** Python values *)

Inductive json : Type :=
| JNull
| JBool (b : bool)
| JInt (n : Z)
| JFloat (x : Q)
| JStr (s : string)
| JArr (items : list json)
| JObj (fields : list (string * json)).

(** Parameter dictionaries ([Dict[str, Any]]). *)
Abbreviation dict := (gmap string json).

(** [bool(v)]: Python truthiness, as used by [if not items], [if params],
    [if since] and [max_pages and ...]. *)
Definition truthy (v : json) : bool :=
  match v with
  | JNull => false
  | JBool b => b
  | JInt n => negb (n =? 0)
  | JFloat x => negb (Qnum x =? 0)
  | JStr s => negb (String.eqb s "")
  | JArr items => negb (Nat.eqb (length items) 0)
  | JObj fields => negb (Nat.eqb (length fields) 0)
  end.

Definition chars (s : string) : list json :=
  map (fun c => JStr (String c EmptyString)) (list_ascii_of_string s).

(** [iter(v)] as [list.extend] consumes it: the elements of a list, the keys of
    a dictionary, the characters of a string; [None] for a value that is not
    iterable (where Python raises [TypeError]). *)
Definition py_iter (v : json) : option (list json) :=
  match v with
  | JArr items => Some items
  | JObj fields => Some (map (fun kv => JStr (fst kv)) fields)
  | JStr s => Some (chars s)
  | JNull | JBool _ | JInt _ | JFloat _ => None
  end.

Definition type_name (v : json) : string :=
  match v with
  | JNull => "NoneType"
  | JBool _ => "bool"
  | JInt _ => "int"
  | JFloat _ => "float"
  | JStr _ => "str"
  | JArr _ => "list"
  | JObj _ => "dict"
  end.

(** [key in d] and [d.get(key)] on a JSON object. *)
Fixpoint obj_get (key : string) (fields : list (string * json)) : option json :=
  match fields with
  | [] => None
  | (k, v) :: rest => if String.eqb k key then Some v else obj_get key rest
  end.

Definition obj_contains (key : string) (fields : list (string * json)) : bool :=
  match obj_get key fields with Some _ => true | None => false end.

(** Lines 97 and 137 (the same expression in both methods):
    [data.get("results") if isinstance(data, dict) and "results" in data else data]. *)
Definition unwrap_envelope (data : json) : json :=
  match data with
  | JObj fields =>
      if obj_contains "results" fields
      then match obj_get "results" fields with Some v => v | None => JNull end
      else data
  | _ => data
  end.

(** ** Exceptions and results *)

Inductive py_error : Type :=
| Exception (msg : string)
| TypeError (msg : string)
| ValueError (msg : string)
| OverflowError (msg : string).

(** The result of running a method: a returned value, a raised exception, or
    [OutOfFuel] when the step budget of an unbounded loop is used up. *)
Inductive result (A : Type) : Type :=
| Returned (a : A)
| Raised (e : py_error)
| OutOfFuel.
Arguments Returned {A} a.
Arguments Raised {A} e.
Arguments OutOfFuel {A}.

(** ** The network and the effect trace *)

(** What [response.json()] raises on a body that is not JSON: the
    [JSONDecodeError] of [requests] (2.27 and later), which is a
    [requests.RequestException], or the one of the [json] module (earlier
    versions), which is a [ValueError] and no [RequestException]. *)
Inductive decode_error : Type :=
| RequestsJSONDecodeError (msg : string)
| PlainJSONDecodeError (msg : string).

(** What one [requests.get] call produces: a response whose body is JSON
    (status code, body text, and the value [response.json()] parses from it),
    a response whose body is not (status code, body text, and the exception
    [response.json()] raises), or a [requests.RequestException]. *)
Inductive http_result : Type :=
| Response (status_code : Z) (text : string) (body : json)
| RequestException (msg : string)
| Undecodable (status_code : Z) (text : string) (e : decode_error).

(** A float as the retry loop meets it: a finite value, or an infinity. *)
Inductive pyfloat : Type :=
| Finite (x : Q)
| Infinite (negative : bool).

Inductive log_level := WARNING | INFO.

Inductive log_record : Type :=
| LogRequestFailed (status_code : Z) (text : string)
| LogRequestException (msg : string)
| LogRetrying (sleep_time : pyfloat)
| LogFetchingPage (page : Z) (endpoint : string)
| LogFetchingIncremental (endpoint : string) (since : option string).

Inductive event : Type :=
| EvGet (url : string) (params : option dict) (timeout : Z) (res : http_result)
| EvLog (level : log_level) (r : log_record)
| EvSleep (seconds : Q).

Definition is_get (e : event) : bool :=
  match e with EvGet _ _ _ _ => true | _ => false end.

Definition gets (tr : list event) : list event := List.filter is_get tr.

Definition sleeps (tr : list event) : list Q :=
  flat_map (fun e => match e with EvSleep q => [q] | _ => [] end) tr.

(** The responses of the attempts in a trace, in order. *)
Definition responses (tr : list event) : list http_result :=
  flat_map (fun e => match e with EvGet _ _ _ r => [r] | _ => [] end) tr.

(** The parameters sent by the attempts in a trace, in order. *)
Definition sent_params (tr : list event) : list (option dict) :=
  flat_map (fun e => match e with EvGet _ p _ _ => [p] | _ => [] end) tr.

(** Events that are neither a request nor a page announcement. *)
Definition quiet (tr : list event) : bool :=
  forallb (fun e => match e with
                    | EvGet _ _ _ _ => false
                    | EvLog INFO (LogFetchingPage _ _) => false
                    | _ => true
                    end) tr.

(** Lines 50-51: an attempt succeeds when [response.status_code == 200] and
    [response.json()] returns. *)
Definition succeeded (r : http_result) : bool :=
  match r with
  | Response status_code _ _ => status_code =? 200
  | RequestException _ => false
  | Undecodable _ _ _ => false
  end.

(** Lines 52-55: an attempt fails, and the loop goes on to the backoff, when
    the status is not 200 or a [RequestException] was raised, by
    [requests.get] or by [response.json()]. *)
Definition failed (r : http_result) : bool :=
  match r with
  | Response status_code _ _ => negb (status_code =? 200)
  | RequestException _ => true
  | Undecodable status_code _ (RequestsJSONDecodeError _) => true
  | Undecodable status_code _ (PlainJSONDecodeError _) => negb (status_code =? 200)
  end.

Definition all_failed (rs : list http_result) : bool := forallb failed rs.

(** ** The ingestor's configuration (lines 22-33) *)

Record APIIngestor : Type := {
  base_url : string;
  max_retries : Z;
  backoff_factor : Q
}.

(** The exact value of [self.backoff_factor * (2 ** (retries - 1))]. It is
    the sleep time of line 58 as long as that stays in range, see
    [float_times_pow2]. *)
Definition sleep_time_of (self : APIIngestor) (retries : Z) : Q :=
  Qmult (backoff_factor self) (inject_Z (2 ^ (retries - 1))).

(** [f * (2 ** k)] for a finite float [f] and [k >= 0] (line 58). The integer
    [2 ** k] is converted to a float first, which raises [OverflowError] from
    [2 ** 1024] on; the product of a float and a power of two is exact, or an
    infinity when it leaves the range of a double. *)
Definition float_times_pow2 (f : Q) (k : Z) : py_error + pyfloat :=
  if 1024 <=? k then inl (OverflowError "int too large to convert to float")
  else
    let x := Qmult f (inject_Z (2 ^ k)) in
    if Qle_bool (inject_Z (2 ^ 1024)) (Qabs x)
    then inr (Infinite (Qnum x <? 0))
    else inr (Finite x).

(** The nanoseconds [time.sleep] converts a duration to, rounding away from
    zero; they have to fit a signed 64-bit integer. ([time.sleep] rounds the
    product to a double before it rounds to an integer, which can matter only
    within a few microseconds of that limit, some 292 years; the schedules
    considered below are either within [2 ** 33] seconds or beyond
    [2 ** 34].) *)
Definition nanoseconds (x : Q) : Z :=
  if Qnum x <? 0 then Qfloor (Qmult x (inject_Z (10 ^ 9)))
  else Qceiling (Qmult x (inject_Z (10 ^ 9))).

(** The backoff that brings the counter to [retries] goes through: the delay
    is computed, it is finite and not negative, and [time.sleep] accepts it. *)
Definition delay_in_range (self : APIIngestor) (retries : Z) : bool :=
  match float_times_pow2 (backoff_factor self) (retries - 1) with
  | inr (Finite x) =>
      (- 2 ^ 63 <=? nanoseconds x) && (nanoseconds x <? 2 ^ 63) && negb (Qnum x <? 0)
  | _ => false
  end.

(** The backoff schedule of an ingestor stays in range: the factor is not
    negative, the largest power of two converts to a float, and the longest
    delay is at most [2 ** 33] seconds, well within what [time.sleep]
    accepts. *)
Definition backoff_in_range (self : APIIngestor) : bool :=
  Qle_bool (inject_Z 0) (backoff_factor self)
  && (max_retries self <=? 1024)
  && Qle_bool (sleep_time_of self (max_retries self)) (inject_Z (2 ^ 33)).

(** ** The state-and-exception monad of the methods *)

Section Ingestor.

(** The remote service: its state and its answer to one GET request (the URL
    and a snapshot of the parameter dictionary that was passed). *)
Context {W : Type}.
Variable http_get : W -> string -> option dict -> http_result * W.

Record state : Type := {
  world : W;
  heap : list dict;
  trace : list event
}.

Definition M (A : Type) : Type := state -> result A * state.

Definition ret {A} (a : A) : M A := fun st => (Returned a, st).

Definition raise {A} (e : py_error) : M A := fun st => (Raised e, st).

Definition out_of_fuel {A} : M A := fun st => (OutOfFuel, st).

Definition bind {A B} (c : M A) (k : A -> M B) : M B :=
  fun st =>
    match c st with
    | (Returned a, st') => k a st'
    | (Raised e, st') => (Raised e, st')
    | (OutOfFuel, st') => (OutOfFuel, st')
    end.

Notation "'let*' x ':=' c 'in' k" := (bind c (fun x => k))
  (at level 10, x name, c at level 100, k at level 200).
Notation "c ';;' k" := (bind c (fun _ => k))
  (at level 100, k at level 200, right associativity).

Definition emit (e : event) : M unit :=
  fun st => (Returned tt,
             {| world := world st; heap := heap st; trace := trace st ++ [e] |}).

(** [logging.warning] and [logging.info]. *)
Definition logging_warning (r : log_record) : M unit := emit (EvLog WARNING r).
Definition logging_info (r : log_record) : M unit := emit (EvLog INFO r).

(** [time.sleep]: the duration is converted to nanoseconds, which raises
    [OverflowError] when they do not fit; a negative duration raises
    [ValueError]; otherwise the thread sleeps. *)
Definition time_sleep (seconds : pyfloat) : M unit :=
  match seconds with
  | Finite x =>
      if (- 2 ^ 63 <=? nanoseconds x) && (nanoseconds x <? 2 ^ 63) then
        if Qnum x <? 0 then raise (ValueError "sleep length must be non-negative")
        else emit (EvSleep x)
      else raise (OverflowError "timestamp too large to convert to C _PyTime_t")
  | Infinite _ =>
      raise (OverflowError "timestamp too large to convert to C _PyTime_t")
  end.

(** Dictionary objects. A reference is an index into the heap; reading one
    that was never allocated yields the empty dictionary. *)
Definition deref (h : list dict) (l : nat) : dict := h !!! l.

Definition snapshot (h : list dict) (params : option nat) : option dict :=
  deref h <$> params.

(** A new dictionary object holding [d] ([{}] and [params.copy()]). *)
Definition alloc (d : dict) : M nat :=
  fun st => (Returned (length (heap st)),
             {| world := world st; heap := heap st ++ [d]; trace := trace st |}).

(** In-place mutation of the object at [l] ([d.update(...)], [d[k] = v]). *)
Definition mutate (l : nat) (f : dict -> dict) : M unit :=
  fun st => (Returned tt,
             {| world := world st;
                heap := <[l := f (deref (heap st) l)]> (heap st);
                trace := trace st |}).

(** [params.copy() if params else {}] (lines 91 and 131): [None] and the empty
    dictionary are falsy; either way the result is a new object. *)
Definition copy_or_empty (params : option nat) : M nat :=
  fun st =>
    match params with
    | Some l =>
        let d := deref (heap st) l in
        if bool_decide (d = ∅) then alloc ∅ st else alloc d st
    | None => alloc ∅ st
    end.

(** [requests.get(url, params=params, timeout=10)] (line 49). *)
Definition requests_get (url : string) (params : option nat) : M http_result :=
  fun st =>
    let p := snapshot (heap st) params in
    let '(r, w') := http_get (world st) url p in
    (Returned r,
     {| world := w'; heap := heap st; trace := trace st ++ [EvGet url p 10 r] |}).

(** ** [_make_request] (lines 35-62) *)

Definition exhausted (self : APIIngestor) (url : string) : py_error :=
  Exception ("Failed to fetch data from " +:+ url +:+ " after "
             +:+ pretty (max_retries self) +:+ " retries").

(** The [while retries < self.max_retries] loop; [fuel] bounds the number of
    iterations. *)
Fixpoint make_request_loop (fuel : nat) (self : APIIngestor) (url : string)
    (params : option nat) (retries : Z) : M json :=
  if retries <? max_retries self then
    match fuel with
    | O => out_of_fuel
    | S fuel' =>
        let retry : M json :=
          let retries := retries + 1 in
          match float_times_pow2 (backoff_factor self) (retries - 1) with
          | inl e => raise e
          | inr sleep_time =>
              logging_info (LogRetrying sleep_time);;
              time_sleep sleep_time;;
              make_request_loop fuel' self url params retries
          end in
        let* response := requests_get url params in
        match response with
        | Response status_code text body =>
            if status_code =? 200 then ret body
            else (logging_warning (LogRequestFailed status_code text);; retry)
        | Undecodable status_code text e =>
            if status_code =? 200 then
              match e with
              | RequestsJSONDecodeError msg =>
                  logging_warning (LogRequestException msg);; retry
              | PlainJSONDecodeError msg => raise (ValueError msg)
              end
            else (logging_warning (LogRequestFailed status_code text);; retry)
        | RequestException e =>
            logging_warning (LogRequestException e);; retry
        end
    end
  else raise (exhausted self url).

Definition _make_request (self : APIIngestor) (url : string)
    (params : option nat) : M json :=
  make_request_loop (Z.to_nat (max_retries self)) self url params 0.

(** ** [fetch_paginated] (lines 66-109) *)

(** [max_pages and page >= max_pages] (line 102). *)
Definition page_limit_reached (max_pages : option Z) (page : Z) : bool :=
  match max_pages with
  | Some m => negb (m =? 0) && (page >=? m)
  | None => false
  end.

Definition not_iterable (v : json) : py_error :=
  TypeError ("'" +:+ type_name v +:+ "' object is not iterable").

(** The [while True] loop with the loop variables [results] and [page]. *)
Fixpoint fetch_paginated_loop (fuel : nat) (self : APIIngestor)
    (endpoint : string) (params : option nat) (page_param : string)
    (per_page : Z) (max_pages : option Z)
    (results : list json) (page : Z) : M (list json) :=
  match fuel with
  | O => out_of_fuel
  | S fuel' =>
      let* paged_params := copy_or_empty params in
      mutate paged_params
        (fun d => <["results" := JInt per_page]> (<[page_param := JInt page]> d));;
      logging_info (LogFetchingPage page endpoint);;
      let* data := _make_request self (base_url self +:+ endpoint) (Some paged_params) in
      let items := unwrap_envelope data in
      if negb (truthy items) then ret results
      else
        match py_iter items with
        | None => raise (not_iterable items)
        | Some elements =>
            let results := results ++ elements in
            if page_limit_reached max_pages page then ret results
            else if Z.of_nat (length elements) <? per_page then ret results
            else fetch_paginated_loop fuel' self endpoint params page_param
                   per_page max_pages results (page + 1)
        end
  end.

Definition fetch_paginated (fuel : nat) (self : APIIngestor) (endpoint : string)
    (params : option nat) (page_param : string) (per_page : Z)
    (max_pages : option Z) : M (list json) :=
  fetch_paginated_loop fuel self endpoint params page_param per_page max_pages [] 1.

(** ** [fetch_incremental] (lines 114-137) *)

Definition fetch_incremental (self : APIIngestor) (endpoint : string)
    (since : option string) (params : option nat) : M json :=
  let* query_params := copy_or_empty params in
  (match since with
   | Some s =>
       if negb (String.eqb s "")
       then mutate query_params (fun d => <["since" := JStr s]> d)
       else ret tt
   | None => ret tt
   end);;
  logging_info (LogFetchingIncremental endpoint since);;
  let* data := _make_request self (base_url self +:+ endpoint) (Some query_params) in
  ret (unwrap_envelope data).

(** ** Vocabulary for stating properties of runs *)

(** The answers the service gives to [n] consecutive attempts of the same
    request, and the service state after them. *)
Fixpoint replay (n : nat) (w : W) (url : string) (p : option dict)
    : list http_result * W :=
  match n with
  | O => ([], w)
  | S n' =>
      let '(r, w') := http_get w url p in
      let '(rs, w'') := replay n' w' url p in
      (r :: rs, w'')
  end.

(** The state after the service moved to [w] and the events [evs] happened. *)
Definition advance (st : state) (w : W) (evs : list event) : state :=
  {| world := w; heap := heap st; trace := trace st ++ evs |}.

(** The content of the dictionary [params.copy() if params else {}]. *)
Definition base_params (h : list dict) (params : option nat) : dict :=
  default ∅ (snapshot h params).

(** The parameters sent for page [page] (line 92). *)
Definition paged_params_of (h : list dict) (params : option nat)
    (page_param : string) (per_page page : Z) : dict :=
  <["results" := JInt per_page]> (<[page_param := JInt page]> (base_params h params)).

(** The parameters sent by [fetch_incremental] (lines 131-133). *)
Definition query_params_of (h : list dict) (params : option nat)
    (since : option string) : dict :=
  match since with
  | Some s =>
      if negb (String.eqb s "") then <["since" := JStr s]> (base_params h params)
      else base_params h params
  | None => base_params h params
  end.

(** The state in which [fetch_paginated] issues the request for page [page]
    (after lines 91-94): a new dictionary object, one log record. *)
Definition page_request_state (st : state) (endpoint : string) (params : option nat)
    (page_param : string) (per_page page : Z) : state :=
  {| world := world st;
     heap := heap st ++ [paged_params_of (heap st) params page_param per_page page];
     trace := trace st ++ [EvLog INFO (LogFetchingPage page endpoint)] |}.

(** The state in which [fetch_incremental] issues its request (after lines
    131-135). *)
Definition incremental_request_state (st : state) (endpoint : string)
    (since : option string) (params : option nat) : state :=
  {| world := world st;
     heap := heap st ++ [query_params_of (heap st) params since];
     trace := trace st ++ [EvLog INFO (LogFetchingIncremental endpoint since)] |}.

(** One method call on an ingestor, and the state a sequence of calls leaves. *)
Inductive call : Type :=
| CallPaginated (fuel : nat) (endpoint : string) (params : option nat)
    (page_param : string) (per_page : Z) (max_pages : option Z)
| CallIncremental (endpoint : string) (since : option string) (params : option nat).

Definition run_call (self : APIIngestor) (c : call) (st : state) : state :=
  match c with
  | CallPaginated fuel endpoint params page_param per_page max_pages =>
      snd (fetch_paginated fuel self endpoint params page_param per_page max_pages st)
  | CallIncremental endpoint since params =>
      snd (fetch_incremental self endpoint since params st)
  end.

Definition run_calls (self : APIIngestor) (cs : list call) (st : state) : state :=
  fold_left (fun st c => run_call self c st) cs st.

End Ingestor.

Arguments state W : clear implicits.
Arguments M W A : clear implicits.

(** The warning record of a failed attempt (lines 53 and 55). *)
Definition warning_of (r : http_result) : log_record :=
  match r with
  | Response status_code text _ => LogRequestFailed status_code text
  | RequestException e => LogRequestException e
  | Undecodable status_code text e =>
      if status_code =? 200 then
        LogRequestException (match e with
                             | RequestsJSONDecodeError msg => msg
                             | PlainJSONDecodeError msg => msg
                             end)
      else LogRequestFailed status_code text
  end.

(** The events of a failed attempt that brings the counter to [retries]
    (lines 49-60) when the delay is in range: the request, the warning, the
    retry notice and the sleep. *)
Definition failed_attempt (self : APIIngestor) (url : string) (p : option dict)
    (retries : Z) (r : http_result) : list event :=
  [EvGet url p 10 r; EvLog WARNING (warning_of r);
   EvLog INFO (LogRetrying (Finite (sleep_time_of self retries)));
   EvSleep (sleep_time_of self retries)].

(** The events of consecutive failed attempts, the counter starting at [retries]. *)
Fixpoint failed_attempts (self : APIIngestor) (url : string) (p : option dict)
    (retries : Z) (rs : list http_result) : list event :=
  match rs with
  | [] => []
  | r :: rs' =>
      failed_attempt self url p (retries + 1) r
      ++ failed_attempts self url p (retries + 1) rs'
  end.

(** The bodies of the successful responses of a trace: the pages fetched. *)
Definition pages (tr : list event) : list json :=
  flat_map (fun e => match e with
                     | EvGet _ _ _ (Response status_code _ body) =>
                         if status_code =? 200 then [body] else []
                     | _ => []
                     end) tr.

(** The records a page contributes to [results]. *)
Definition page_elements (data : json) : list json :=
  default [] (py_iter (unwrap_envelope data)).

(** ** [batch_process] (lines 139-151) *)

(** The number of elements of [range(start, stop, step)] for a non-zero step. *)
Definition range_length (start stop step : Z) : nat :=
  if 0 <? step then
    if start <? stop then Z.to_nat ((stop - start - 1) / step + 1) else O
  else
    if stop <? start then Z.to_nat ((start - stop - 1) / (- step) + 1) else O.

Definition py_range (start stop step : Z) : list Z :=
  map (fun i => start + Z.of_nat i * step) (seq 0 (range_length start stop step)).

(** A slice bound as Python normalises it: a negative index counts from the
    end, and the result is clamped to [0, len]. *)
Definition slice_index {A} (l : list A) (i : Z) : nat :=
  let len := Z.of_nat (length l) in
  Z.to_nat (if i <? 0 then Z.max (i + len) 0 else Z.min i len).

(** [l[a:b]]. *)
Definition py_slice {A} (l : list A) (a b : Z) : list A :=
  let lo := slice_index l a in
  let hi := slice_index l b in
  take (hi - lo) (drop lo l).

(** The batches the generator yields, in order; [range] rejects a zero step. *)
Definition batch_process {A} (data : list A) (batch_size : Z) : result (list (list A)) :=
  if batch_size =? 0 then Raised (ValueError "range() arg 3 must not be zero")
  else Returned (map (fun i => py_slice data i (i + batch_size))
                     (py_range 0 (Z.of_nat (length data)) batch_size)).

(** ** Example services and inputs *)

(** A service that answers from a script, one entry per attempt, and refuses
    connections once the script is used up. *)
Definition script_get (w : list http_result) (url : string) (p : option dict)
    : http_result * list http_result :=
  match w with
  | r :: w' => (r, w')
  | [] => (RequestException "connection refused", [])
  end.

Definition police_api : APIIngestor :=
  {| base_url := "https://data.police.uk/api/"; max_retries := 3;
     backoff_factor := Qmake 1 2 |}.

(** A caller holding one dictionary, [{"date": "2025-07"}], at reference 0. *)
Definition caller_state (script : list http_result) : state (list http_result) :=
  {| world := script; heap := [ {["date" := JStr "2025-07"]} ]; trace := [] |}.

Definition crime (n : Z) : json := JObj [("id", JInt n)].

(** Three attempts that all fail. *)
Definition failing_script : list http_result :=
  [Response 500 "oops" JNull; RequestException "timed out";
   Response 404 "not found" JNull].

(** Pages of 3, 3 and 2 records, the second one wrapped in an envelope and
    served only after a failed attempt. *)
Definition three_pages_script : list http_result :=
  [Response 200 "" (JArr [crime 1; crime 2; crime 3]);
   Response 503 "busy" JNull;
   Response 200 "" (JObj [("count", JInt 3);
                          ("results", JArr [crime 4; crime 5; crime 6])]);
   Response 200 "" (JArr [crime 7; crime 8])].

(** A service that always answers with a full page of two records. *)
Definition endless_get (w : unit) (url : string) (p : option dict)
    : http_result * unit :=
  (Response 200 "" (JArr [crime 1; crime 2]), tt).

(** A service that holds the records [db] and serves them by page: the
    request for page [page] with ["results"] set to [per_page] is answered with
    the slice [db[(page-1)*per_page : page*per_page]]. *)
Definition paging_get (db : list json) (w : unit) (url : string) (p : option dict)
    : http_result * unit :=
  match p ≫= lookup "page", p ≫= lookup "results" with
  | Some (JInt page), Some (JInt per_page) =>
      (Response 200 ""
         (JArr (py_slice db ((page - 1) * per_page) (page * per_page))), tt)
  | _, _ => (Response 400 "bad request" JNull, tt)
  end.

(** The reading of the cursor rule "a supplied cursor is sent under the key
    since, an omitted one leaves the key absent" on the parameters of one
    request. *)
Definition since_key_as_claimed (since : option string) (p : option dict) : Prop :=
  match since with
  | Some s => p ≫= lookup "since" = Some (JStr s)
  | None => p ≫= lookup "since" = None
  end.

(** ** Vocabulary for further properties *)

(** The total of a list of durations. *)
Definition total_delay (delays : list Q) : Q := fold_right Qplus (inject_Z 0) delays.

(** The failed ones among the responses. *)
Definition failures (rs : list http_result) : list http_result :=
  List.filter failed rs.

(** The page numbers announced in a trace (the records of line 94), in order. *)
Definition page_logs (tr : list event) : list Z :=
  flat_map (fun e => match e with
                     | EvLog INFO (LogFetchingPage page _) => [page]
                     | _ => []
                     end) tr.

(** The parameters of the attempts of consecutive page requests: [attempts]
    lists how many attempts each page took, the first page being [page]. *)
Fixpoint page_requests (paged : Z -> dict) (page : Z) (attempts : list nat)
    : list (option dict) :=
  match attempts with
  | [] => []
  | c :: rest => replicate c (Some (paged page)) ++ page_requests paged (page + 1) rest
  end.

(** A reference is live in a heap: [None], or the location of an object. *)
Definition live (h : list dict) (params : option nat) : Prop :=
  match params with
  | Some l => (l < length h)%nat
  | None => True
  end.

(** ** The demonstration script (lines 157-178) *)

(** [APIIngestor(base_url=...)] with the defaults of [__init__] (line 22). *)
Definition new_ingestor (base_url : string) : APIIngestor :=
  {| base_url := base_url; max_retries := 5; backoff_factor := Qmake 1 2 |}.

(** The dictionary literal of lines 164-167; the two coordinates are the
    decimal numbers written there. *)
Definition crime_query : dict :=
  <["lng" := JFloat (Qmake (-1131592) 1000000)]>
    (<["lat" := JFloat (Qmake 52629729 1000000)]>
       (<["date" := JStr "2025-07"]> ∅)).

(** What the script can raise: an exception of the ingestor, or one of the
    lookup errors of [batch[1]["location"]["street"]["name"]]: [IndexError],
    [KeyError] with the missing key, or the [TypeError] of subscripting a
    value of the named type with a string. *)
Inductive script_error : Type :=
| IngestorError (e : py_error)
| IndexError (msg : string)
| KeyError (key : string)
| SubscriptTypeError (type : string).

(** The records the script itself logs (lines 172, 176, 177, 178). *)
Inductive script_record : Type :=
| LogTotalFetched (count : Z)
| LogProcessingBatch (count : Z)
| LogBatchSample (sample : list json)
| LogStreetName (name : json).

(** [v[key]] for a string key. *)
Definition subscript (v : json) (key : string) : script_error + json :=
  match v with
  | JObj fields =>
      match obj_get key fields with
      | Some x => inr x
      | None => inl (KeyError key)
      end
  | _ => inl (SubscriptTypeError (type_name v))
  end.

(** [record["location"]["street"]["name"]]. *)
Definition street_name (record : json) : script_error + json :=
  match subscript record "location" with
  | inl e => inl e
  | inr location =>
      match subscript location "street" with
      | inl e => inl e
      | inr street => subscript street "name"
      end
  end.

(** The body of the [for] loop (lines 176-178) on one batch: the records it
    logs and the exception it raises, if any. *)
Definition process_batch (batch : list json) : list script_record * option script_error :=
  let logged := [LogProcessingBatch (Z.of_nat (length batch));
                 LogBatchSample (py_slice batch 0 2)] in
  match batch !! 1%nat with
  | None => (logged, Some (IndexError "list index out of range"))
  | Some record =>
      match street_name record with
      | inl e => (logged, Some e)
      | inr name => (logged ++ [LogStreetName name], None)
      end
  end.

(** The [for] loop over the batches: it ends at the first exception. *)
Fixpoint process_batches (batches : list (list json))
    : list script_record * option script_error :=
  match batches with
  | [] => ([], None)
  | batch :: rest =>
      match process_batch batch with
      | (logged, Some e) => (logged, Some e)
      | (logged, None) =>
          let '(logged', e) := process_batches rest in (logged ++ logged', e)
      end
  end.

(** The outcome of the script: it ran to the end, an exception escaped, or the
    step budget of the pagination loop was used up. *)
Inductive script_result : Type :=
| Finished
| Failed (e : script_error)
| Unfinished.

Section Script.

Context {W : Type}.
Variable http_get : W -> string -> option dict -> http_result * W.

(** The script from the state [st]: its outcome, the records it logged after
    the fetch, and the state the ingestor left. *)
Definition main (fuel : nat) (st : state W)
    : script_result * list script_record * state W :=
  let ingestor := new_ingestor "https://data.police.uk/api/" in
  match bind (alloc crime_query)
          (fun params =>
             fetch_paginated http_get fuel ingestor "/api/crimes-street/all-crime"
               (Some params) "page" 200 (Some 20)) st with
  | (Raised e, st') => (Failed (IngestorError e), [], st')
  | (OutOfFuel, st') => (Unfinished, [], st')
  | (Returned all_crimes, st') =>
      let total := LogTotalFetched (Z.of_nat (length all_crimes)) in
      match batch_process all_crimes 100 with
      | Raised e => (Failed (IngestorError e), [total], st')
      | OutOfFuel => (Unfinished, [total], st')
      | Returned batches =>
          let '(logged, e) := process_batches batches in
          (match e with Some e => Failed e | None => Finished end, total :: logged, st')
      end
  end.

End Script.

(** A batch the loop body of the script gets through: it has a second record,
    and that record has a street name. *)
Definition readable (batch : list json) : Prop :=
  exists record name, batch !! 1%nat = Some record /\ street_name record = inr name.

(** A record that has a street name. *)
Definition crime_at (street : string) : json :=
  JObj [("category", JStr "burglary");
        ("location", JObj [("street", JObj [("id", JInt 1); ("name", JStr street)])])].

(** A service that answers every request with the same [count] records. *)
Definition fixed_get (count : nat) (w : unit) (url : string) (p : option dict)
    : http_result * unit :=
  (Response 200 "" (JArr (replicate count (crime_at "On or near High Street"))), tt).

(** A state with no dictionary and no history, for a service without state. *)
Definition idle : state unit := {| world := tt; heap := []; trace := [] |}.


Definition no_retry_api : APIIngestor :=
  {| base_url := "https://data.police.uk/api/"; max_retries := 0;
     backoff_factor := Qmake 1 2 |}.

(** The default backoff factor with forty retries: the delay after the 36th
    failure, [0.5 * 2 ** 35] seconds, is more than [time.sleep] accepts. *)
Definition patient_api : APIIngestor :=
  {| base_url := "https://data.police.uk/api/"; max_retries := 40;
     backoff_factor := Qmake 1 2 |}.

(** A tiny backoff factor, [2 ** -1000] seconds, with 1025 retries: every
    delay is short, but the power of two of line 58 for the 1025th failure,
    [2 ** 1024], does not convert to a float. *)
Definition stubborn_api : APIIngestor :=
  {| base_url := "https://data.police.uk/api/"; max_retries := 1025;
     backoff_factor := Qmake 1 (2 ^ 1000) |}.

Definition crimes_url : string := "https://data.police.uk/api/crimes".

(** What the properties of a run of [_make_request] are about: its result,
    the answers to its requests, its sleeps and its last event. *)
Definition run_summary {W} (run : result json * state W)
    : result json * list http_result * list Q * option event :=
  (fst run, responses (trace (snd run)), sleeps (trace (snd run)),
   last (trace (snd run))).

(** A caller without a dictionary, facing a service that refuses every
    connection. *)
Definition refused : state (list http_result) :=
  {| world := []; heap := []; trace := [] |}.

(** The status code of an answer, when there is one. *)
Definition status_of (r : http_result) : option Z :=
  match r with
  | Response status_code _ _ => Some status_code
  | Undecodable status_code _ _ => Some status_code
  | RequestException _ => None
  end.

(** An answer with status code 200 whose body is a web page, not JSON. *)
Definition html_page (e : decode_error) : http_result :=
  Undecodable 200 "<html>maintenance</html>" e.

(** A failed attempt followed by a good answer, and a web page followed by a
    good answer. *)
Definition busy_then_ok : state (list http_result) :=
  {| world := [Response 503 "busy" JNull; Response 200 "[1]" (JArr [JInt 1])];
     heap := []; trace := [] |}.

Definition html_then_ok (e : decode_error) : state (list http_result) :=
  {| world := [html_page e; Response 200 "[1]" (JArr [JInt 1])];
     heap := []; trace := [] |}.


(** * Properties *)

Section Properties.

Context {W : Type}.
Variable http_get : W -> string -> option dict -> http_result * W.

Implicit Types (st : state W) (self : APIIngestor) (url : string)
  (params : option nat) (retries : Z) (fuel : nat).

(** *** The state after events *)

Lemma advance_nil st : advance st (world st) [] = st.
Proof. destruct st; unfold advance; simpl. by rewrite app_nil_r. Qed.

Lemma advance_advance st w1 e1 w2 e2 :
  advance (advance st w1 e1) w2 e2 = advance st w2 (e1 ++ e2).
Proof. unfold advance; simpl. by rewrite app_assoc. Qed.

(** *** One iteration of the retry loop *)

Lemma bind_emit {A} (e : event) (k : unit -> M W A) (st : state W) :
  bind (emit e) k st
  = k tt {| world := world st; heap := heap st; trace := trace st ++ [e] |}.
Proof. reflexivity. Qed.

Lemma make_request_loop_done fuel self url params retries st :
  max_retries self <= retries ->
  make_request_loop http_get fuel self url params retries st
  = (Raised (exhausted self url), st).
Proof.
  intros Hge. assert ((retries <? max_retries self) = false) as Hlt by lia.
  destruct fuel; simpl; rewrite Hlt; reflexivity.
Qed.

Lemma make_request_loop_success fuel self url params retries st t body w' :
  retries < max_retries self ->
  http_get (world st) url (snapshot (heap st) params) = (Response 200 t body, w') ->
  make_request_loop http_get (S fuel) self url params retries st
  = (Returned body,
     advance st w' [EvGet url (snapshot (heap st) params) 10 (Response 200 t body)]).
Proof.
  intros Hlt Hget. assert ((retries <? max_retries self) = true) as Hb by lia.
  simpl. rewrite Hb. unfold bind, requests_get. rewrite Hget. reflexivity.
Qed.

(** A [200] whose body raises the [ValueError] kind of decode error: the
    exception is not caught by line 54 and leaves the loop. *)
Lemma make_request_loop_escape fuel self url params retries st t msg w' :
  retries < max_retries self ->
  http_get (world st) url (snapshot (heap st) params)
  = (Undecodable 200 t (PlainJSONDecodeError msg), w') ->
  make_request_loop http_get (S fuel) self url params retries st
  = (Raised (ValueError msg),
     advance st w' [EvGet url (snapshot (heap st) params) 10
                      (Undecodable 200 t (PlainJSONDecodeError msg))]).
Proof.
  intros Hlt Hget. assert ((retries <? max_retries self) = true) as Hb by lia.
  simpl. rewrite Hb. unfold bind, requests_get. rewrite Hget. reflexivity.
Qed.

(** Every answer is of exactly one of three kinds. *)
Lemma http_result_kind r :
  (exists t body, r = Response 200 t body)
  \/ failed r = true
  \/ (exists t msg, r = Undecodable 200 t (PlainJSONDecodeError msg)).
Proof.
  destruct r as [status_code t body | e | status_code t [msg|msg]]; cbn.
  - destruct (status_code =? 200) eqn:H; [|by right; left].
    left. assert (status_code = 200) as -> by lia. by exists t, body.
  - by right; left.
  - by right; left.
  - destruct (status_code =? 200) eqn:H; [|by right; left].
    right. right. assert (status_code = 200) as -> by lia. by exists t, msg.
Qed.

Lemma failed_not_succeeded r : failed r = true -> succeeded r = false.
Proof.
  destruct r as [status_code t body | e | status_code t [msg|msg]]; cbn; try done.
  by intros ->%negb_true_iff.
Qed.

Lemma delay_in_range_spec self retries :
  delay_in_range self retries = true ->
  float_times_pow2 (backoff_factor self) (retries - 1)
  = inr (Finite (sleep_time_of self retries)) /\
  ((- 2 ^ 63 <=? nanoseconds (sleep_time_of self retries))
   && (nanoseconds (sleep_time_of self retries) <? 2 ^ 63)) = true /\
  (Qnum (sleep_time_of self retries) <? 0) = false.
Proof.
  unfold delay_in_range, float_times_pow2, sleep_time_of.
  destruct (1024 <=? retries - 1); [done|]. cbn zeta.
  destruct (Qle_bool _ _); [done|].
  intros H. apply andb_prop in H as [H1 H2]. apply negb_true_iff in H2. done.
Qed.

(** The remainder of a failed attempt: the warning, then the backoff, which
    either goes through (the loop continues with the counter incremented) or
    raises. *)
Lemma make_request_loop_failure fuel self url params retries st r w' :
  retries < max_retries self ->
  http_get (world st) url (snapshot (heap st) params) = (r, w') ->
  failed r = true ->
  delay_in_range self (retries + 1) = true ->
  make_request_loop http_get (S fuel) self url params retries st
  = make_request_loop http_get fuel self url params (retries + 1)
      (advance st w' (failed_attempt self url (snapshot (heap st) params) (retries + 1) r)).
Proof.
  intros Hlt Hget Hfail Hdelay. assert ((retries <? max_retries self) = true) as Hb by lia.
  destruct (delay_in_range_spec self (retries + 1) Hdelay) as (Hprod & Hfits & Hsign).
  cbn [make_request_loop]. rewrite Hb.
  unfold bind at 1. unfold requests_get. rewrite Hget.
  rewrite Hprod. unfold advance, failed_attempt.
  assert (forall (st0 : state W),
            bind (logging_info (LogRetrying (Finite (sleep_time_of self (retries + 1)))))
              (fun _ => bind (time_sleep (Finite (sleep_time_of self (retries + 1))))
                 (fun _ => make_request_loop http_get fuel self url params (retries + 1)))
              st0
            = make_request_loop http_get fuel self url params (retries + 1)
                {| world := world st0; heap := heap st0;
                   trace := trace st0
                            ++ [EvLog INFO (LogRetrying (Finite (sleep_time_of self (retries + 1))));
                                EvSleep (sleep_time_of self (retries + 1))] |}) as Hretry.
  { intros st0. unfold bind, logging_info, time_sleep, emit. rewrite Hfits, Hsign.
    cbn. by rewrite <- app_assoc. }
  assert (forall rec,
            bind (logging_warning rec)
              (fun _ => bind (logging_info (LogRetrying (Finite (sleep_time_of self (retries + 1)))))
                 (fun _ => bind (time_sleep (Finite (sleep_time_of self (retries + 1))))
                    (fun _ => make_request_loop http_get fuel self url params (retries + 1))))
              {| world := w'; heap := heap st;
                 trace := trace st ++ [EvGet url (snapshot (heap st) params) 10 r] |}
            = make_request_loop http_get fuel self url params (retries + 1)
                {| world := w'; heap := heap st;
                   trace := trace st
                            ++ [EvGet url (snapshot (heap st) params) 10 r;
                                EvLog WARNING rec;
                                EvLog INFO (LogRetrying (Finite (sleep_time_of self (retries + 1))));
                                EvSleep (sleep_time_of self (retries + 1))] |}) as Hwarn.
  { intros rec. unfold logging_warning. rewrite bind_emit, Hretry. cbn [world heap trace].
    by rewrite <- !app_assoc. }
  destruct r as [status_code text body | e | status_code text [msg|msg]];
    cbn in Hfail; cbn beta iota zeta; cbn [warning_of].
  - apply negb_true_iff in Hfail. rewrite Hfail. apply Hwarn.
  - apply Hwarn.
  - destruct (status_code =? 200); apply Hwarn.
  - apply negb_true_iff in Hfail. rewrite Hfail. apply Hwarn.
Qed.

(** Whatever the delay, one iteration sends one request and then either
    returns its body, or raises, or goes on with the counter incremented;
    what it adds to the trace after the request is neither a request nor a
    page announcement. *)
Lemma make_request_loop_step fuel self url params retries st r w' :
  retries < max_retries self ->
  http_get (world st) url (snapshot (heap st) params) = (r, w') ->
  (exists t body,
     r = Response 200 t body /\
     make_request_loop http_get (S fuel) self url params retries st
     = (Returned body, advance st w' [EvGet url (snapshot (heap st) params) 10 r]))
  \/
  (succeeded r = false /\ exists q,
     quiet q = true /\
     ((exists e,
         make_request_loop http_get (S fuel) self url params retries st
         = (Raised e, advance st w' (EvGet url (snapshot (heap st) params) 10 r :: q)))
      \/
      make_request_loop http_get (S fuel) self url params retries st
      = make_request_loop http_get fuel self url params (retries + 1)
          (advance st w' (EvGet url (snapshot (heap st) params) 10 r :: q)))).
Proof.
  intros Hlt Hget.
  destruct (http_result_kind r) as [(t & body & ->) | [Hfail | (t & msg & ->)]].
  - left. exists t, body. split; [done|]. by apply make_request_loop_success.
  - right. split; [by apply failed_not_succeeded|].
    destruct (delay_in_range self (retries + 1)) eqn:Hdelay.
    + eexists. split; [|right; by apply make_request_loop_failure]. done.
    + assert ((retries <? max_retries self) = true) as Hb by lia.
      assert (exists q e,
                quiet q = true /\
                forall (st0 : state W),
                  (match float_times_pow2 (backoff_factor self) (retries + 1 - 1) with
                   | inl e => raise e
                   | inr sleep_time =>
                       bind (logging_info (LogRetrying sleep_time))
                         (fun _ => bind (time_sleep sleep_time)
                            (fun _ => make_request_loop http_get fuel self url params
                                        (retries + 1)))
                   end) st0
                  = (Raised e, {| world := world st0; heap := heap st0;
                                  trace := trace st0 ++ q |})) as (q & e & Hq & Hretry).
      { unfold delay_in_range in Hdelay.
        destruct (float_times_pow2 (backoff_factor self) (retries + 1 - 1))
          as [e | [x | negative]].
        - exists [], e. split; [done|]. intros st0. unfold raise.
          rewrite app_nil_r. by destruct st0.
        - destruct ((- 2 ^ 63 <=? nanoseconds x) && (nanoseconds x <? 2 ^ 63)) eqn:Hfits.
          + cbn in Hdelay. apply negb_false_iff in Hdelay.
            eexists [EvLog INFO (LogRetrying (Finite x))], _. split; [done|].
            intros st0. unfold bind, logging_info, time_sleep, emit, raise.
            rewrite Hfits, Hdelay. reflexivity.
          + eexists [EvLog INFO (LogRetrying (Finite x))], _. split; [done|].
            intros st0. unfold bind, logging_info, time_sleep, emit, raise.
            rewrite Hfits. reflexivity.
        - eexists [EvLog INFO (LogRetrying (Infinite negative))], _. split; [done|].
          intros st0. unfold bind, logging_info, time_sleep, emit, raise. reflexivity. }
      assert (forall rec,
                bind (logging_warning rec)
                  (fun _ => match float_times_pow2 (backoff_factor self) (retries + 1 - 1) with
                            | inl e => raise e
                            | inr sleep_time =>
                                bind (logging_info (LogRetrying sleep_time))
                                  (fun _ => bind (time_sleep sleep_time)
                                     (fun _ => make_request_loop http_get fuel self url params
                                                 (retries + 1)))
                            end)
                  {| world := w'; heap := heap st;
                     trace := trace st ++ [EvGet url (snapshot (heap st) params) 10 r] |}
                = (Raised e,
                   advance st w' (EvGet url (snapshot (heap st) params) 10 r
                                  :: EvLog WARNING rec :: q))) as Hwarn.
      { intros rec. unfold logging_warning. rewrite bind_emit, Hretry.
        unfold advance. cbn [world heap trace]. by rewrite <- !app_assoc. }
      exists (EvLog WARNING (warning_of r) :: q). split; [done|].
      left. exists e. cbn [make_request_loop]. rewrite Hb.
      unfold bind at 1. unfold requests_get. rewrite Hget.
      destruct r as [status_code text body | e' | status_code text [msg|msg]];
        cbn in Hfail; cbn beta iota zeta; cbn [warning_of].
      * apply negb_true_iff in Hfail. rewrite Hfail. apply Hwarn.
      * apply Hwarn.
      * destruct (status_code =? 200); apply Hwarn.
      * apply negb_true_iff in Hfail. rewrite Hfail. apply Hwarn.
  - right. split; [done|]. exists []. split; [done|]. left. eexists.
    by apply make_request_loop_escape.
Qed.

(** *** Projections of a trace *)

Lemma responses_app a b : responses (a ++ b) = responses a ++ responses b.
Proof. apply flat_map_app. Qed.

Lemma sleeps_app a b : sleeps (a ++ b) = sleeps a ++ sleeps b.
Proof. apply flat_map_app. Qed.

Lemma pages_app a b : pages (a ++ b) = pages a ++ pages b.
Proof. apply flat_map_app. Qed.

Lemma sent_params_app a b : sent_params (a ++ b) = sent_params a ++ sent_params b.
Proof. apply flat_map_app. Qed.

Lemma gets_app a b : gets (a ++ b) = gets a ++ gets b.
Proof. apply List.filter_app. Qed.

Lemma page_logs_app a b : page_logs (a ++ b) = page_logs a ++ page_logs b.
Proof. apply flat_map_app. Qed.

Lemma quiet_projections q :
  quiet q = true ->
  gets q = [] /\ responses q = [] /\ sent_params q = [] /\ pages q = []
  /\ page_logs q = [].
Proof.
  induction q as [|e q IH]; [done|]. cbn [quiet forallb]. intros H.
  apply andb_prop in H as [He Hq]. destruct (IH Hq) as (H1 & H2 & H3 & H4 & H5).
  change (e :: q) with ([e] ++ q).
  rewrite gets_app, responses_app, sent_params_app, pages_app, page_logs_app,
    H1, H2, H3, H4, H5, !app_nil_r.
  destruct e as [url p t r | lvl rec | x]; [done| |done].
  destruct lvl; destruct rec; done.
Qed.

Lemma pages_not_succeeded url p t r :
  succeeded r = false -> pages [EvGet url p t r] = [].
Proof.
  destruct r as [status_code text body | e | status_code text e]; try done.
  cbn. by intros ->.
Qed.

(** *** What the loop does for every service and every configuration *)

(** The loop never touches the heap and only extends the trace; what it adds
    holds at most one request per remaining iteration, each the same request,
    no page announcement, and no successful answer except possibly the last
    one. It never runs out of fuel when there is one unit per remaining
    iteration; when it returns a body, that body is the one page its events
    record, and when it raises they record none. *)
Lemma make_request_loop_effect n : forall fuel self url params retries st,
  n = Z.to_nat (max_retries self - retries) -> (n <= fuel)%nat ->
  exists evs,
    heap (snd (make_request_loop http_get fuel self url params retries st)) = heap st /\
    trace (snd (make_request_loop http_get fuel self url params retries st))
    = trace st ++ evs /\
    gets evs = map (EvGet url (snapshot (heap st) params) 10) (responses evs) /\
    sent_params evs = map (fun _ => snapshot (heap st) params) (responses evs) /\
    (length (responses evs) <= n)%nat /\
    page_logs evs = [] /\
    (forall i r, responses evs !! i = Some r -> succeeded r = true ->
       S i = length (responses evs)) /\
    match fst (make_request_loop http_get fuel self url params retries st) with
    | Returned data => pages evs = [data]
    | Raised _ => pages evs = []
    | OutOfFuel => False
    end.
Proof.
  induction n as [|n IH]; intros fuel self url params retries st Hn Hfuel.
  - rewrite make_request_loop_done by lia. exists []. cbn [fst snd].
    rewrite app_nil_r. repeat split; done.
  - destruct fuel as [|fuel]; [lia|].
    assert (retries < max_retries self) as Hlt by lia.
    destruct (http_get (world st) url (snapshot (heap st) params)) as [r w'] eqn:Hget.
    destruct (make_request_loop_step fuel self url params retries st r w' Hlt Hget)
      as [(t & body & -> & Hrun) | (Hr & q & Hq & [(e & Hrun) | Hrun])].
    + rewrite Hrun. cbn [fst snd advance heap trace]. eexists.
      split; [done|]. split; [done|]. split; [done|]. split; [done|].
      split; [cbn; lia|]. split; [done|]. split; [|done].
      intros i r Hi _. apply lookup_lt_Some in Hi. cbn in Hi |- *. lia.
    + rewrite Hrun. cbn [fst snd advance heap trace]. eexists.
      split; [done|]. split; [done|].
      destruct (quiet_projections q Hq) as (H1 & H2 & H3 & H4 & H5).
      change (EvGet url (snapshot (heap st) params) 10 r :: q)
        with ([EvGet url (snapshot (heap st) params) 10 r] ++ q).
      rewrite gets_app, responses_app, sent_params_app, pages_app, page_logs_app,
        H1, H2, H3, H4, H5, !app_nil_r.
      split; [done|]. split; [done|]. split; [cbn; lia|]. split; [done|].
      split; [|by apply pages_not_succeeded].
      intros i r0 Hi Hr0. cbn in Hi. destruct i as [|i]; [|done].
      cbn in Hi. injection Hi as <-. congruence.
    + rewrite Hrun.
      destruct (IH fuel self url params (retries + 1)
                  (advance st w' (EvGet url (snapshot (heap st) params) 10 r :: q)))
        as (evs & Hheap & Htrace & Hgets & Hsent & Hlen & Hlogs & Hlast & Hres);
        [lia|lia|].
      cbn [advance heap trace] in Hheap, Htrace, Hgets, Hsent.
      exists ((EvGet url (snapshot (heap st) params) 10 r :: q) ++ evs).
      destruct (quiet_projections q Hq) as (H1 & H2 & H3 & H4 & H5).
      split; [done|]. split; [by rewrite Htrace, <- app_assoc|].
      change (EvGet url (snapshot (heap st) params) 10 r :: q)
        with ([EvGet url (snapshot (heap st) params) 10 r] ++ q).
      rewrite !gets_app, !responses_app, !sent_params_app, !pages_app, !page_logs_app,
        H1, H2, H3, H4, H5, !app_nil_r, Hgets, Hsent, Hlogs,
        (pages_not_succeeded _ _ _ _ Hr).
      split; [done|]. split; [done|]. split; [cbn; lia|]. split; [done|].
      split; [|done].
      intros i r0 Hi Hr0. cbn in Hi |- *. destruct i as [|i].
      * cbn in Hi. injection Hi as <-. congruence.
      * cbn in Hi. f_equal. by apply (Hlast i r0).
Qed.

(** *** Replaying the service *)

Lemma replay_S n w url p r w' :
  http_get w url p = (r, w') ->
  replay http_get (S n) w url p
  = (r :: fst (replay http_get n w' url p), snd (replay http_get n w' url p)).
Proof. intros H. simpl. rewrite H. by destruct (replay http_get n w' url p). Qed.

Lemma replay_length n w url p : length (fst (replay http_get n w url p)) = n.
Proof.
  revert w. induction n as [|n IH]; intros w; [done|].
  destruct (http_get w url p) as [r w'] eqn:Hget.
  rewrite (replay_S _ _ _ _ _ _ Hget). simpl. by rewrite IH.
Qed.

(** *** A backoff schedule in range *)

Lemma in_range_facts (f : Q) (k m : Z) :
  Qle (inject_Z 0) f -> 0 <= k <= m ->
  Qle (Qmult f (inject_Z (2 ^ m))) (inject_Z (2 ^ 33)) ->
  let x := Qmult f (inject_Z (2 ^ k)) in
  Qle_bool (inject_Z (2 ^ 1024)) (Qabs x) = false /\
  (Qnum x <? 0) = false /\
  (- 2 ^ 63 <=? nanoseconds x) = true /\ (nanoseconds x <? 2 ^ 63) = true.
Proof.
  intros Hf Hk Hmax x.
  assert (Qle (inject_Z 0) (inject_Z (2 ^ k))) as Hp.
  { rewrite <- Zle_Qle. apply Z.pow_nonneg. lia. }
  assert (Qle (inject_Z 0) x) as Hx0.
  { unfold x. apply Qmult_le_0_compat; assumption. }
  assert (Qle x (inject_Z (2 ^ 33))) as Hxmax.
  { eapply Qle_trans; [|exact Hmax]. unfold x.
    rewrite !(Qmult_comm f). apply Qmult_le_compat_r; [|exact Hf].
    rewrite <- Zle_Qle. apply Z.pow_le_mono_r; lia. }
  clearbody x.
  assert ((Qnum x <? 0) = false) as Hsign.
  { apply Z.ltb_ge. destruct x as [num den]. unfold Qle in Hx0. cbn in Hx0 |- *. lia. }
  split; [|split; [exact Hsign|]].
  - destruct (Qle_bool (inject_Z (2 ^ 1024)) (Qabs x)) eqn:Hb; [|reflexivity].
    apply Qle_bool_iff in Hb. rewrite (Qabs_pos x Hx0) in Hb.
    pose proof (Qle_trans _ _ _ Hb Hxmax) as Habs.
    rewrite <- Zle_Qle in Habs. exfalso. revert Habs. apply Z.lt_nge.
    apply Z.pow_lt_mono_r; lia.
  - unfold nanoseconds. rewrite Hsign.
    assert (Qle (inject_Z 0) (Qmult x (inject_Z (10 ^ 9)))) as Hns0.
    { apply Qmult_le_0_compat; [exact Hx0|].
      change (Qle (inject_Z 0) (inject_Z (10 ^ 9))). rewrite <- Zle_Qle. lia. }
    assert (Qle (Qmult x (inject_Z (10 ^ 9))) (inject_Z (2 ^ 33 * 10 ^ 9))) as Hns.
    { rewrite inject_Z_mult. apply Qmult_le_compat_r; [exact Hxmax|].
      change (Qle (inject_Z 0) (inject_Z (10 ^ 9))). rewrite <- Zle_Qle. lia. }
    apply Qceiling_resp_le in Hns0, Hns. rewrite Qceiling_Z in Hns0, Hns.
    split; [apply Z.leb_le | apply Z.ltb_lt].
    + eapply Z.le_trans; [|exact Hns0]. lia.
    + eapply Z.le_lt_trans; [exact Hns|]. reflexivity.
Qed.

(** With the schedule in range, every delay of the run is computed and slept. *)
Lemma backoff_in_range_delay self retries :
  backoff_in_range self = true -> 1 <= retries <= max_retries self ->
  delay_in_range self retries = true.
Proof.
  unfold backoff_in_range. intros H Hretries.
  apply andb_prop in H as [H Hlongest]. apply andb_prop in H as [Hfactor Hmax].
  apply Qle_bool_iff in Hfactor, Hlongest. apply Z.leb_le in Hmax.
  unfold sleep_time_of in Hlongest.
  destruct (in_range_facts (backoff_factor self) (retries - 1) (max_retries self - 1)
              Hfactor ltac:(lia) Hlongest) as (Hinf & Hsign & Hlo & Hhi).
  unfold delay_in_range, float_times_pow2.
  assert ((1024 <=? retries - 1) = false) as -> by lia.
  cbn zeta. rewrite Hinf, Hsign, Hlo, Hhi. done.
Qed.

(** *** Runs of the retry loop with the schedule in range *)

(** When the next [n] attempts all fail, the loop goes through all of them. *)
Lemma make_request_loop_failures n : forall fuel self url params retries st,
  backoff_in_range self = true -> 0 <= retries ->
  retries + Z.of_nat n <= max_retries self ->
  all_failed (fst (replay http_get n (world st) url (snapshot (heap st) params))) = true ->
  make_request_loop http_get (n + fuel) self url params retries st
  = make_request_loop http_get fuel self url params (retries + Z.of_nat n)
      (advance st (snd (replay http_get n (world st) url (snapshot (heap st) params)))
         (failed_attempts self url (snapshot (heap st) params) retries
            (fst (replay http_get n (world st) url (snapshot (heap st) params))))).
Proof.
  induction n as [|n IH]; intros fuel self url params retries st Hrange H0 Hle Hall.
  - simpl. rewrite advance_nil. f_equal. lia.
  - destruct (http_get (world st) url (snapshot (heap st) params)) as [r w'] eqn:Hget.
    rewrite (replay_S _ _ _ _ _ _ Hget) in Hall |- *. cbn [fst snd] in Hall |- *.
    cbn [all_failed forallb] in Hall. apply andb_prop in Hall as [Hr Hrest].
    replace (S n + fuel)%nat with (S (n + fuel)) by lia.
    assert (retries < max_retries self) as Hlt by lia.
    rewrite (make_request_loop_failure _ _ _ _ _ _ _ _ Hlt Hget Hr)
      by (apply backoff_in_range_delay; [done|lia]).
    rewrite IH; [|done|lia|lia|exact Hrest].
    cbn [failed_attempts]. rewrite advance_advance. f_equal. lia.
Qed.

(** Every run of the loop: some number [k] of failed attempts, followed by
    exhaustion (when [k] attempts were all that remained), or by one
    successful attempt whose body is returned, or by one attempt answered
    [200] with a body whose decode error is not caught. *)
Lemma make_request_loop_run n : forall fuel self url params retries st,
  backoff_in_range self = true -> 0 <= retries ->
  n = Z.to_nat (max_retries self - retries) -> (n <= fuel)%nat ->
  exists k rs w,
    (k <= n)%nat /\
    replay http_get k (world st) url (snapshot (heap st) params) = (rs, w) /\
    all_failed rs = true /\
    ((k = n /\
      make_request_loop http_get fuel self url params retries st
      = (Raised (exhausted self url),
         advance st w (failed_attempts self url (snapshot (heap st) params) retries rs)))
     \/
     ((k < n)%nat /\ exists t body w',
        http_get w url (snapshot (heap st) params) = (Response 200 t body, w') /\
        make_request_loop http_get fuel self url params retries st
        = (Returned body,
           advance st w'
             (failed_attempts self url (snapshot (heap st) params) retries rs
              ++ [EvGet url (snapshot (heap st) params) 10 (Response 200 t body)])))
     \/
     ((k < n)%nat /\ exists t msg w',
        http_get w url (snapshot (heap st) params)
        = (Undecodable 200 t (PlainJSONDecodeError msg), w') /\
        make_request_loop http_get fuel self url params retries st
        = (Raised (ValueError msg),
           advance st w'
             (failed_attempts self url (snapshot (heap st) params) retries rs
              ++ [EvGet url (snapshot (heap st) params) 10
                    (Undecodable 200 t (PlainJSONDecodeError msg))])))).
Proof.
  induction n as [|n IH]; intros fuel self url params retries st Hrange H0 Hn Hfuel.
  - exists O, [], (world st). split; [lia|]. split; [done|]. split; [done|].
    left. split; [done|]. rewrite advance_nil.
    apply make_request_loop_done. lia.
  - destruct fuel as [|fuel]; [lia|].
    assert (retries < max_retries self) as Hlt by lia.
    destruct (http_get (world st) url (snapshot (heap st) params)) as [r w1] eqn:Hget.
    destruct (http_result_kind r) as [(t & body & ->) | [Hr | (t & msg & ->)]].
    + exists O, [], (world st). split; [lia|]. split; [done|]. split; [done|].
      right. left. split; [lia|]. exists t, body, w1. split; [done|].
      by apply make_request_loop_success.
    + rewrite (make_request_loop_failure _ _ _ _ _ _ _ _ Hlt Hget Hr)
        by (apply backoff_in_range_delay; [done|lia]).
      destruct (IH fuel self url params (retries + 1)
                  (advance st w1 (failed_attempt self url (snapshot (heap st) params)
                                    (retries + 1) r)))
        as (k & rs & w & Hk & Hrep & Hall & Hcase); [done|lia|lia|lia|].
      cbn [advance world heap] in Hrep, Hcase.
      exists (S k), (r :: rs), w. split; [lia|]. split.
      { rewrite (replay_S _ _ _ _ _ _ Hget), Hrep. done. }
      split. { unfold all_failed in *. cbn [forallb]. by rewrite Hr, Hall. }
      destruct Hcase as [[-> Hrun] | [(Hlt' & t & body & w' & Hget' & Hrun)
                                     | (Hlt' & t & msg & w' & Hget' & Hrun)]].
      * left. split; [done|]. rewrite Hrun, advance_advance. done.
      * right. left. split; [lia|]. exists t, body, w'. split; [done|].
        rewrite Hrun, advance_advance. cbn [failed_attempts]. by rewrite <- app_assoc.
      * right. right. split; [lia|]. exists t, msg, w'. split; [done|].
        rewrite Hrun, advance_advance. cbn [failed_attempts]. by rewrite <- app_assoc.
    + exists O, [], (world st). split; [lia|]. split; [done|]. split; [done|].
      right. right. split; [lia|]. exists t, msg, w1. split; [done|].
      by apply make_request_loop_escape.
Qed.

(** The same for [_make_request]. *)
Lemma make_request_run self url params st :
  backoff_in_range self = true ->
  exists k rs w,
    (k <= Z.to_nat (max_retries self))%nat /\
    replay http_get k (world st) url (snapshot (heap st) params) = (rs, w) /\
    all_failed rs = true /\
    ((k = Z.to_nat (max_retries self) /\
      _make_request http_get self url params st
      = (Raised (exhausted self url),
         advance st w (failed_attempts self url (snapshot (heap st) params) 0 rs)))
     \/
     ((k < Z.to_nat (max_retries self))%nat /\ exists t body w',
        http_get w url (snapshot (heap st) params) = (Response 200 t body, w') /\
        _make_request http_get self url params st
        = (Returned body,
           advance st w'
             (failed_attempts self url (snapshot (heap st) params) 0 rs
              ++ [EvGet url (snapshot (heap st) params) 10 (Response 200 t body)])))
     \/
     ((k < Z.to_nat (max_retries self))%nat /\ exists t msg w',
        http_get w url (snapshot (heap st) params)
        = (Undecodable 200 t (PlainJSONDecodeError msg), w') /\
        _make_request http_get self url params st
        = (Raised (ValueError msg),
           advance st w'
             (failed_attempts self url (snapshot (heap st) params) 0 rs
              ++ [EvGet url (snapshot (heap st) params) 10
                    (Undecodable 200 t (PlainJSONDecodeError msg))])))).
Proof.
  intros Hrange. unfold _make_request.
  apply (make_request_loop_run (Z.to_nat (max_retries self))); [done|lia|f_equal; lia|lia].
Qed.

(** *** Projections of the trace of failed attempts *)

Lemma responses_failed_attempts self url p retries rs :
  responses (failed_attempts self url p retries rs) = rs.
Proof.
  revert retries. induction rs as [|r rs IH]; intros retries; [done|].
  cbn [failed_attempts]. rewrite responses_app, IH. done.
Qed.

Lemma gets_failed_attempts self url p retries rs :
  length (gets (failed_attempts self url p retries rs)) = length rs.
Proof.
  revert retries. induction rs as [|r rs IH]; intros retries; [done|].
  cbn [failed_attempts]. rewrite gets_app, length_app, IH. done.
Qed.

Lemma sent_params_failed_attempts self url p retries rs :
  sent_params (failed_attempts self url p retries rs) = map (fun _ => p) rs.
Proof.
  revert retries. induction rs as [|r rs IH]; intros retries; [done|].
  cbn [failed_attempts]. rewrite sent_params_app, IH. done.
Qed.

Lemma pages_failed_attempts self url p retries rs :
  all_failed rs = true -> pages (failed_attempts self url p retries rs) = [].
Proof.
  revert retries. induction rs as [|r rs IH]; intros retries Hall; [done|].
  cbn in Hall. apply andb_prop in Hall as [Hr Hrest].
  cbn [failed_attempts]. rewrite pages_app, (IH _ Hrest), app_nil_r.
  unfold failed_attempt.
  change (pages [EvGet url p 10 r] = []).
  by apply pages_not_succeeded, failed_not_succeeded.
Qed.

(** The sleeps of [n] consecutive failed attempts, the counter starting at
    [retries]: the [i]-th of them (from 1) is the delay for counter value
    [retries + i]. *)
Lemma sleeps_failed_attempts self url p retries rs :
  sleeps (failed_attempts self url p retries rs)
  = map (fun i => sleep_time_of self (retries + Z.of_nat i)) (seq 1 (length rs)).
Proof.
  revert retries. induction rs as [|r rs IH]; intros retries; [done|].
  cbn [failed_attempts]. rewrite sleeps_app, IH.
  cbn [length seq map]. rewrite <- (seq_shift (length rs) 1), List.map_map.
  cbn. f_equal. apply map_ext. intros i. f_equal. lia.
Qed.

(** *** Exhaustion *)

(** When the next [max_retries] attempts all fail, [_make_request] raises after
    going through exactly these attempts. *)
Lemma make_request_all_failed self url params st :
  backoff_in_range self = true ->
  0 <= max_retries self ->
  all_failed (fst (replay http_get (Z.to_nat (max_retries self)) (world st) url
                     (snapshot (heap st) params))) = true ->
  _make_request http_get self url params st
  = (Raised (exhausted self url),
     advance st
       (snd (replay http_get (Z.to_nat (max_retries self)) (world st) url
               (snapshot (heap st) params)))
       (failed_attempts self url (snapshot (heap st) params) 0
          (fst (replay http_get (Z.to_nat (max_retries self)) (world st) url
                  (snapshot (heap st) params))))).
Proof.
  intros Hrange Hpos Hall. unfold _make_request.
  rewrite <- (Nat.add_0_r (Z.to_nat (max_retries self))) at 1.
  rewrite make_request_loop_failures; [|done|lia|lia|exact Hall].
  apply make_request_loop_done. lia.
Qed.

(** *** The backoff schedule *)

Lemma last_failed_attempts self url p retries rs :
  rs <> [] ->
  last (failed_attempts self url p retries rs)
  = Some (EvSleep (sleep_time_of self (retries + Z.of_nat (length rs)))).
Proof.
  revert retries. induction rs as [|r rs IH]; intros retries Hne; [done|].
  cbn [failed_attempts]. destruct rs as [|r' rs].
  - unfold failed_attempt. cbn [failed_attempts app last length].
    replace (retries + Z.of_nat 1) with (retries + 1) by lia. done.
  - rewrite last_app, IH by done. cbn [length].
    replace (retries + 1 + Z.of_nat (S (length rs)))
      with (retries + Z.of_nat (S (S (length rs)))) by lia. done.
Qed.

(** C5. Provided the backoff schedule is in range (the factor is not
    negative, [max_retries] is at most 1024 and the longest delay is at most
    [2 ** 33] seconds), the trace of every run of [_make_request] consists of
    the failed attempts, each laid out as request, warning, retry notice,
    sleep, followed by the last request if the run does not end in
    exhaustion; the failed attempts are the answers the service gives to the
    first requests. The sleep after failed attempt [k] (counted from 1), which
    is the sleep before attempt [k+1], lasts [backoff_factor * 2^(k-1)]. When
    the retries are exhausted the last event before the exception is the
    sleep after the final failed attempt, of length
    [backoff_factor * 2^(max_retries-1)]. *)
Theorem backoff_schedule self url params st :
  backoff_in_range self = true ->
  exists rs w final,
    replay http_get (length rs) (world st) url (snapshot (heap st) params) = (rs, w) /\
    all_failed rs = true /\
    trace (snd (_make_request http_get self url params st))
    = trace st ++ failed_attempts self url (snapshot (heap st) params) 0 rs ++ final /\
    sleeps (failed_attempts self url (snapshot (heap st) params) 0 rs ++ final)
    = map (fun k => Qmult (backoff_factor self) (inject_Z (2 ^ (Z.of_nat k - 1))))
          (seq 1 (length rs)) /\
    ((exists t body w',
        http_get w url (snapshot (heap st) params) = (Response 200 t body, w') /\
        final = [EvGet url (snapshot (heap st) params) 10 (Response 200 t body)] /\
        fst (_make_request http_get self url params st) = Returned body /\
        (length rs < Z.to_nat (max_retries self))%nat)
     \/
     (exists t msg w',
        http_get w url (snapshot (heap st) params)
        = (Undecodable 200 t (PlainJSONDecodeError msg), w') /\
        final = [EvGet url (snapshot (heap st) params) 10
                   (Undecodable 200 t (PlainJSONDecodeError msg))] /\
        fst (_make_request http_get self url params st) = Raised (ValueError msg) /\
        (length rs < Z.to_nat (max_retries self))%nat)
     \/
     (final = [] /\
      fst (_make_request http_get self url params st) = Raised (exhausted self url) /\
      length rs = Z.to_nat (max_retries self) /\
      (0 < max_retries self ->
       last (trace (snd (_make_request http_get self url params st)))
       = Some (EvSleep (Qmult (backoff_factor self)
                          (inject_Z (2 ^ (max_retries self - 1)))))))).
Proof.
  intros Hrange.
  destruct (make_request_run self url params st Hrange)
    as (k & rs & w & Hk & Hrep & Hall & Hcase).
  assert (length rs = k) as Hlen.
  { pose proof (replay_length k (world st) url (snapshot (heap st) params)) as H.
    by rewrite Hrep in H. }
  assert (forall n,
            map (fun i => sleep_time_of self (0 + Z.of_nat i)) (seq 1 n)
            = map (fun k => Qmult (backoff_factor self) (inject_Z (2 ^ (Z.of_nat k - 1))))
                (seq 1 n)) as Hsleeps.
  { intros n. apply map_ext. intros i. unfold sleep_time_of. by rewrite Z.add_0_l. }
  destruct Hcase as [[-> Hrun] | [(Hlt & t & body & w' & Hget & Hrun)
                                 | (Hlt & t & msg & w' & Hget & Hrun)]].
  - exists rs, w, []. rewrite Hrun. cbn [snd fst advance trace]. rewrite !app_nil_r.
    split; [by rewrite Hlen|]. split; [done|]. split; [done|].
    split; [by rewrite sleeps_failed_attempts|].
    right. right. split; [done|]. split; [done|]. split; [done|].
    intros Hpos. rewrite last_app, last_failed_attempts.
    + unfold sleep_time_of. cbn [from_option]. rewrite Hlen, Z.add_0_l.
      do 5 f_equal. lia.
    + intros ->. cbn in Hlen. lia.
  - exists rs, w, [EvGet url (snapshot (heap st) params) 10 (Response 200 t body)].
    rewrite Hrun. cbn [snd fst advance trace].
    split; [by rewrite Hlen|]. split; [done|]. split; [done|].
    split. { rewrite sleeps_app, sleeps_failed_attempts. cbn [sleeps flat_map].
             by rewrite !app_nil_r. }
    left. exists t, body, w'. split; [done|]. split; [done|]. split; [done|]. lia.
  - exists rs, w, [EvGet url (snapshot (heap st) params) 10
                     (Undecodable 200 t (PlainJSONDecodeError msg))].
    rewrite Hrun. cbn [snd fst advance trace].
    split; [by rewrite Hlen|]. split; [done|]. split; [done|].
    split. { rewrite sleeps_app, sleeps_failed_attempts. cbn [sleeps flat_map].
             by rewrite !app_nil_r. }
    right. left. exists t, msg, w'. split; [done|]. split; [done|]. split; [done|]. lia.
Qed.

(** *** Success of an attempt *)

Lemma succeeded_iff r :
  succeeded r = true <-> exists t body, r = Response 200 t body.
Proof.
  split.
  - destruct r as [status_code t body | e | status_code t e]; cbn; [|done|done].
    intros H. assert (status_code = 200) as -> by lia. by exists t, body.
  - by intros (t & body & ->).
Qed.

Lemma failed_iff r :
  failed r = true
  <-> (exists status_code t body, r = Response status_code t body /\ status_code <> 200)
      \/ (exists e, r = RequestException e)
      \/ (exists status_code t e, r = Undecodable status_code t e /\ status_code <> 200)
      \/ (exists t msg, r = Undecodable 200 t (RequestsJSONDecodeError msg)).
Proof.
  split.
  - destruct r as [status_code t body | e | status_code t [msg|msg]]; cbn; intros H.
    + left. exists status_code, t, body. split; [done|].
      apply negb_true_iff in H. lia.
    + right. left. by exists e.
    + destruct (decide (status_code = 200)) as [->|Hne].
      * right. right. right. by exists t, msg.
      * right. right. left. by exists status_code, t, (RequestsJSONDecodeError msg).
    + right. right. left. exists status_code, t, (PlainJSONDecodeError msg).
      split; [done|]. apply negb_true_iff in H. lia.
  - intros [(status_code & t & body & -> & Hne) | [(e & ->)
            | [(status_code & t & e & -> & Hne) | (t & msg & ->)]]]; cbn; try done.
    + apply negb_true_iff. lia.
    + destruct e; [done|]. apply negb_true_iff. lia.
Qed.

(** C6. Provided the backoff schedule is in range. An attempt succeeds
    exactly when its response has status code 200 and a body that parses; such
    an attempt ends the loop at once, returning the parsed body with no
    further event. An attempt fails when the status code is not 200, when the
    request raised a [RequestException], or when the status code is 200 and
    the body raised the decode error that is a [RequestException]: a failed
    attempt is logged at warning level and the loop goes on with the counter
    incremented. A status code 200 with a body whose decode error is not a
    [RequestException] ends the loop with that error. Over a whole run:
    [_make_request] returns [body] exactly when, within the retry budget, the
    service answers with attempts that all fail followed by an attempt with
    status 200 and the parsed body [body]; the trace is then these failed
    attempts followed by that request. *)
Theorem success_iff_status_200 self url params :
  backoff_in_range self = true ->
  (forall r, succeeded r = true <-> exists t body, r = Response 200 t body) /\
  (forall r,
     failed r = true
     <-> (exists status_code t body, r = Response status_code t body /\ status_code <> 200)
         \/ (exists e, r = RequestException e)
         \/ (exists status_code t e, r = Undecodable status_code t e /\ status_code <> 200)
         \/ (exists t msg, r = Undecodable 200 t (RequestsJSONDecodeError msg))) /\
  (forall fuel retries st r w',
     0 <= retries < max_retries self ->
     http_get (world st) url (snapshot (heap st) params) = (r, w') ->
     (forall t body, r = Response 200 t body ->
        make_request_loop http_get (S fuel) self url params retries st
        = (Returned body, advance st w' [EvGet url (snapshot (heap st) params) 10 r])) /\
     (failed r = true ->
        make_request_loop http_get (S fuel) self url params retries st
        = make_request_loop http_get fuel self url params (retries + 1)
            (advance st w'
               [EvGet url (snapshot (heap st) params) 10 r;
                EvLog WARNING (warning_of r);
                EvLog INFO (LogRetrying (Finite (sleep_time_of self (retries + 1))));
                EvSleep (sleep_time_of self (retries + 1))])) /\
     (forall t msg, r = Undecodable 200 t (PlainJSONDecodeError msg) ->
        make_request_loop http_get (S fuel) self url params retries st
        = (Raised (ValueError msg),
           advance st w' [EvGet url (snapshot (heap st) params) 10 r]))) /\
  (forall st body,
     fst (_make_request http_get self url params st) = Returned body
     <-> exists k rs w t w',
           (k < Z.to_nat (max_retries self))%nat /\
           replay http_get k (world st) url (snapshot (heap st) params) = (rs, w) /\
           all_failed rs = true /\
           http_get w url (snapshot (heap st) params) = (Response 200 t body, w')) /\
  (forall st k rs w t body w',
     (k < Z.to_nat (max_retries self))%nat ->
     replay http_get k (world st) url (snapshot (heap st) params) = (rs, w) ->
     all_failed rs = true ->
     http_get w url (snapshot (heap st) params) = (Response 200 t body, w') ->
     _make_request http_get self url params st
     = (Returned body,
        advance st w'
          (failed_attempts self url (snapshot (heap st) params) 0 rs
           ++ [EvGet url (snapshot (heap st) params) 10 (Response 200 t body)]))).
Proof.
  intros Hrange.
  assert (forall st k rs w t body w',
     (k < Z.to_nat (max_retries self))%nat ->
     replay http_get k (world st) url (snapshot (heap st) params) = (rs, w) ->
     all_failed rs = true ->
     http_get w url (snapshot (heap st) params) = (Response 200 t body, w') ->
     _make_request http_get self url params st
     = (Returned body,
        advance st w'
          (failed_attempts self url (snapshot (heap st) params) 0 rs
           ++ [EvGet url (snapshot (heap st) params) 10 (Response 200 t body)])))
    as Hforward.
  { intros st k rs w t body w' Hk Hrep Hall Hget. unfold _make_request.
    replace (Z.to_nat (max_retries self))
      with (k + S (Z.to_nat (max_retries self) - k - 1))%nat by lia.
    rewrite make_request_loop_failures; rewrite ?Hrep; cbn [fst snd];
      [|done|lia|lia|done].
    erewrite make_request_loop_success; [|lia|exact Hget].
    by rewrite advance_advance. }
  split; [exact succeeded_iff|]. split; [exact failed_iff|]. split; [|split].
  - intros fuel retries st r w' Hlt Hget. split; [|split].
    + intros t body ->. apply make_request_loop_success; [lia|done].
    + intros Hr. apply make_request_loop_failure; [lia|done|done|].
      apply backoff_in_range_delay; [done|lia].
    + intros t msg ->. apply make_request_loop_escape; [lia|done].
  - intros st body. split.
    + intros Hret.
      destruct (make_request_run self url params st Hrange)
        as (k & rs & w & Hk & Hrep & Hall & Hcase).
      destruct Hcase as [[-> Hrun] | [(Hlt & t & body' & w' & Hget & Hrun)
                                     | (Hlt & t & msg & w' & Hget & Hrun)]];
        rewrite Hrun in Hret; cbn in Hret; [done| |done].
      injection Hret as ->. by exists k, rs, w, t, w'.
    + intros (k & rs & w & t & w' & Hk & Hrep & Hall & Hget).
      by rewrite (Hforward st k rs w t body w' Hk Hrep Hall Hget).
  - exact Hforward.
Qed.


(** *** The request states of the fetch methods *)

Lemma copy_or_empty_fresh params st :
  copy_or_empty params st
  = (Returned (length (heap st)),
     {| world := world st; heap := heap st ++ [base_params (heap st) params];
        trace := trace st |}).
Proof.
  unfold copy_or_empty, base_params, snapshot, alloc.
  destruct params as [l|]; cbn; [|done].
  case_bool_decide as Hd; [|done]. by rewrite Hd.
Qed.

Lemma deref_fresh (h : list dict) d : deref (h ++ [d]) (length h) = d.
Proof.
  unfold deref. apply list_lookup_total_correct.
  rewrite lookup_app_r by lia. by rewrite Nat.sub_diag.
Qed.

Lemma insert_fresh (h : list dict) d d' : <[length h := d']> (h ++ [d]) = h ++ [d'].
Proof.
  rewrite insert_app_r_alt by lia. by rewrite Nat.sub_diag.
Qed.

Lemma snapshot_fresh (h : list dict) d : snapshot (h ++ [d]) (Some (length h)) = Some d.
Proof. unfold snapshot. cbn. by rewrite deref_fresh. Qed.

Lemma fetch_paginated_loop_unfold fuel self endpoint params page_param per_page
    max_pages results page st :
  fetch_paginated_loop http_get (S fuel) self endpoint params page_param per_page
    max_pages results page st
  = match _make_request http_get self (base_url self +:+ endpoint)
            (Some (length (heap st)))
            (page_request_state st endpoint params page_param per_page page) with
    | (Returned data, st1) =>
        let items := unwrap_envelope data in
        if negb (truthy items) then (Returned results, st1)
        else
          match py_iter items with
          | None => (Raised (not_iterable items), st1)
          | Some elements =>
              if page_limit_reached max_pages page
              then (Returned (results ++ elements), st1)
              else if Z.of_nat (length elements) <? per_page
              then (Returned (results ++ elements), st1)
              else fetch_paginated_loop http_get fuel self endpoint params page_param
                     per_page max_pages (results ++ elements) (page + 1) st1
          end
    | (Raised e, st1) => (Raised e, st1)
    | (OutOfFuel, st1) => (OutOfFuel, st1)
    end.
Proof.
  cbn [fetch_paginated_loop]. unfold bind at 1. rewrite copy_or_empty_fresh.
  unfold bind at 1. unfold mutate at 1. cbn [world heap trace].
  rewrite deref_fresh, insert_fresh.
  unfold bind at 1. unfold logging_info at 1, emit. cbn [world heap trace].
  unfold bind at 1. unfold page_request_state, paged_params_of.
  destruct (_make_request _ _ _ _ _) as [[data|e|] st1]; [|done|done].
  cbn zeta. destruct (negb (truthy (unwrap_envelope data))); [done|].
  destruct (py_iter (unwrap_envelope data)) as [elements|]; [|done].
  destruct (page_limit_reached max_pages page); [done|].
  by destruct (Z.of_nat (length elements) <? per_page).
Qed.

Lemma fetch_incremental_unfold self endpoint since params st :
  fetch_incremental http_get self endpoint since params st
  = match _make_request http_get self (base_url self +:+ endpoint)
            (Some (length (heap st)))
            (incremental_request_state st endpoint since params) with
    | (Returned data, st1) => (Returned (unwrap_envelope data), st1)
    | (Raised e, st1) => (Raised e, st1)
    | (OutOfFuel, st1) => (OutOfFuel, st1)
    end.
Proof.
  unfold fetch_incremental. unfold bind at 1. rewrite copy_or_empty_fresh.
  unfold bind at 1.
  assert ((match since with
           | Some s => if negb (String.eqb s "")
                       then mutate (length (heap st)) (fun d => <["since" := JStr s]> d)
                       else ret tt
           | None => ret tt
           end) {| world := world st;
                   heap := heap st ++ [base_params (heap st) params];
                   trace := trace st |}
          = (Returned tt,
             {| world := world st;
                heap := heap st ++ [query_params_of (heap st) params since];
                trace := trace st |})) as ->.
  { unfold query_params_of. destruct since as [s|]; [|done].
    destruct (negb (String.eqb s "")); [|done].
    unfold mutate. cbn [world heap trace]. by rewrite deref_fresh, insert_fresh. }
  unfold bind at 1. unfold logging_info at 1, emit. cbn [world heap trace].
  unfold bind at 1. unfold incremental_request_state.
  by destruct (_make_request _ _ _ _ _) as [[data|e|] st1].
Qed.

(** *** Exhaustion reaches the caller *)

(** C1. Provided the backoff schedule is in range (the factor is not
    negative, [max_retries] is at most 1024 and the longest delay is at most
    [2 ** 33] seconds): if every one of the [max_retries] attempts fails (a
    status code other than 200, a [RequestException], or a body that raises
    the decode error that is one), [_make_request] raises the exhaustion
    exception, whose message carries the URL and the retry count, after exactly
    [max_retries] GET requests, all of them failed. Nothing is returned to the
    caller: whatever it would do with the result (the continuation [k]) is not
    run and it raises the same exception. In particular a [fetch_paginated]
    iteration whose page request this is raises it whatever [results] it has
    accumulated, and so does a [fetch_incremental] call whose request this
    is. *)
Theorem make_request_exhausted self url params st :
  backoff_in_range self = true ->
  0 <= max_retries self ->
  all_failed (fst (replay http_get (Z.to_nat (max_retries self)) (world st) url
                     (snapshot (heap st) params))) = true ->
  exists st' evs,
    _make_request http_get self url params st
    = (Raised (Exception ("Failed to fetch data from " +:+ url +:+ " after "
                          +:+ pretty (max_retries self) +:+ " retries")), st') /\
    trace st' = trace st ++ evs /\
    Z.of_nat (length (gets evs)) = max_retries self /\
    all_failed (responses evs) = true /\
    (forall (B : Type) (k : json -> M W B),
       bind (_make_request http_get self url params) k st
       = (Raised (Exception ("Failed to fetch data from " +:+ url +:+ " after "
                             +:+ pretty (max_retries self) +:+ " retries")), st')) /\
    (forall fuel endpoint params0 page_param per_page max_pages results page st0,
       url = base_url self +:+ endpoint ->
       params = Some (length (heap st0)) ->
       st = page_request_state st0 endpoint params0 page_param per_page page ->
       fetch_paginated_loop http_get (S fuel) self endpoint params0 page_param
         per_page max_pages results page st0
       = (Raised (Exception ("Failed to fetch data from " +:+ url +:+ " after "
                             +:+ pretty (max_retries self) +:+ " retries")), st')) /\
    (forall endpoint since params0 st0,
       url = base_url self +:+ endpoint ->
       params = Some (length (heap st0)) ->
       st = incremental_request_state st0 endpoint since params0 ->
       fetch_incremental http_get self endpoint since params0 st0
       = (Raised (Exception ("Failed to fetch data from " +:+ url +:+ " after "
                             +:+ pretty (max_retries self) +:+ " retries")), st')).
Proof.
  intros Hrange Hpos Hall.
  pose proof (make_request_all_failed self url params st Hrange Hpos Hall) as Hrun.
  eexists _, _. split; [exact Hrun|]. split; [reflexivity|].
  split. { rewrite gets_failed_attempts, replay_length. lia. }
  split. { by rewrite responses_failed_attempts. }
  split; [|split].
  - intros B k. unfold bind. by rewrite Hrun.
  - intros fuel endpoint params0 page_param per_page max_pages results page st0
      -> -> ->.
    rewrite fetch_paginated_loop_unfold. by rewrite Hrun.
  - intros endpoint since params0 st0 -> -> ->.
    rewrite fetch_incremental_unfold. by rewrite Hrun.
Qed.

(** *** The termination conditions of the pagination loop *)

Lemma truthy_array_false items : truthy (JArr items) = false <-> items = [].
Proof. destruct items; cbn; split; done. Qed.

Lemma page_limit_reached_iff max_pages page :
  page_limit_reached max_pages page = true
  <-> exists m, max_pages = Some m /\ m <> 0 /\ m <= page.
Proof.
  unfold page_limit_reached. split.
  - destruct max_pages as [m|]; [|done]. intros H.
    apply andb_prop in H as [H1 H2]. exists m. split; [done|]. lia.
  - intros (m & -> & Hm & Hle). apply andb_true_intro. lia.
Qed.

(** C2. One iteration of the pagination loop, once the request for the page
    has returned [data] (leaving state [st1]), checks in this order:
    (1) the items are falsy (for a list: there are none), then the loop stops
    with [results] unchanged; (2) the page limit is reached, then it stops with
    the page's elements appended; (3) the page has fewer than [per_page]
    elements, then it stops with the elements appended; otherwise it goes on
    from [st1] with the elements appended and the page counter incremented. *)
Theorem pagination_termination_order fuel self endpoint params page_param per_page
    max_pages results page st data st1 :
  _make_request http_get self (base_url self +:+ endpoint) (Some (length (heap st)))
    (page_request_state st endpoint params page_param per_page page)
  = (Returned data, st1) ->
  (truthy (unwrap_envelope data) = false ->
   fetch_paginated_loop http_get (S fuel) self endpoint params page_param per_page
     max_pages results page st
   = (Returned results, st1)) /\
  (forall elements,
     truthy (unwrap_envelope data) = true ->
     py_iter (unwrap_envelope data) = Some elements ->
     (page_limit_reached max_pages page = true ->
      fetch_paginated_loop http_get (S fuel) self endpoint params page_param per_page
        max_pages results page st
      = (Returned (results ++ elements), st1)) /\
     (page_limit_reached max_pages page = false ->
      Z.of_nat (length elements) < per_page ->
      fetch_paginated_loop http_get (S fuel) self endpoint params page_param per_page
        max_pages results page st
      = (Returned (results ++ elements), st1)) /\
     (page_limit_reached max_pages page = false ->
      per_page <= Z.of_nat (length elements) ->
      fetch_paginated_loop http_get (S fuel) self endpoint params page_param per_page
        max_pages results page st
      = fetch_paginated_loop http_get fuel self endpoint params page_param per_page
          max_pages (results ++ elements) (page + 1) st1)) /\
  (forall items, truthy (JArr items) = false <-> items = []) /\
  (page_limit_reached max_pages page = true
   <-> exists m, max_pages = Some m /\ m <> 0 /\ m <= page).
Proof.
  intros Hreq. rewrite fetch_paginated_loop_unfold, Hreq. cbn zeta.
  split; [by intros ->|].
  split; [|split; [exact truthy_array_false | exact (page_limit_reached_iff _ _)]].
  intros elements -> ->. cbn [negb].
  split; [by intros ->|]. split.
  - intros -> Hshort.
    assert ((Z.of_nat (length elements) <? per_page) = true) as -> by lia. done.
  - intros -> Hfull.
    assert ((Z.of_nat (length elements) <? per_page) = false) as -> by lia. done.
Qed.

(** *** What a request leaves behind *)

(** A request never touches the heap, only extends the trace, and never runs
    out of fuel; when it returns a body, that body is the one page its events
    record. *)
Lemma make_request_effect self url params st :
  exists evs,
    heap (snd (_make_request http_get self url params st)) = heap st /\
    trace (snd (_make_request http_get self url params st)) = trace st ++ evs /\
    sent_params evs = map (fun _ => snapshot (heap st) params) (responses evs) /\
    (length (responses evs) <= Z.to_nat (max_retries self))%nat /\
    match fst (_make_request http_get self url params st) with
    | Returned data => pages evs = [data]
    | Raised _ => pages evs = []
    | OutOfFuel => False
    end.
Proof.
  unfold _make_request.
  destruct (make_request_loop_effect (Z.to_nat (max_retries self))
              (Z.to_nat (max_retries self)) self url params 0 st)
    as (evs & Hheap & Htrace & Hgets & Hsent & Hlen & Hlogs & Hlast & Hres);
    [f_equal; lia | lia |].
  by exists evs.
Qed.

Lemma falsy_no_elements v : truthy v = false -> default [] (py_iter v) = [].
Proof.
  destruct v as [|b|n|x|s|items|fields]; cbn; try done.
  - destruct s; [done|]. cbn. done.
  - by destruct items.
  - by destruct fields.
Qed.

(** *** The result of pagination *)

Lemma fetch_paginated_loop_pages fuel self endpoint params page_param per_page
    max_pages : forall results page st res st',
  fetch_paginated_loop http_get fuel self endpoint params page_param per_page
    max_pages results page st = (Returned res, st') ->
  exists evs,
    trace st' = trace st ++ evs /\
    res = results ++ concat (map page_elements (pages evs)) /\
    (forall data, head (pages evs) = Some data ->
       truthy (unwrap_envelope data) = false ->
       res = results /\ pages evs = [data]).
Proof.
  induction fuel as [|fuel IH]; intros results page st res st' Hrun; [done|].
  rewrite fetch_paginated_loop_unfold in Hrun.
  destruct (make_request_effect self (base_url self +:+ endpoint)
              (Some (length (heap st)))
              (page_request_state st endpoint params page_param per_page page))
    as (evs1 & Hheap & Htrace & _ & _ & Hpages).
  destruct (_make_request _ _ _ _ _) as [[data|e|] st1]; [|done|done].
  cbn [fst snd] in *. cbn zeta in Hrun. cbn [page_request_state trace] in Htrace.
  rewrite <- app_assoc in Htrace.
  assert (pages ([EvLog INFO (LogFetchingPage page endpoint)] ++ evs1) = [data])
    as Hpages1 by (by rewrite pages_app, Hpages).
  destruct (truthy (unwrap_envelope data)) eqn:Htruthy; cbn [negb] in Hrun.
  - destruct (py_iter (unwrap_envelope data)) as [elements|] eqn:Hiter; [|done].
    assert (page_elements data = elements) as Helements
      by (unfold page_elements; by rewrite Hiter).
    assert (forall tl, results ++ concat (map page_elements ([data] ++ tl))
                       = (results ++ elements) ++ concat (map page_elements tl)) as Hcat.
    { intros tl. cbn. by rewrite Helements, app_assoc. }
    destruct (page_limit_reached max_pages page);
      [|destruct (Z.of_nat (length elements) <? per_page)].
    1,2: injection Hrun as <- <-; eexists; split; [exact Htrace|];
         rewrite Hpages1; split;
         [by rewrite <- (app_nil_r [data]), Hcat; cbn; rewrite app_nil_r
         |intros d [= <-] Hd; congruence].
    destruct (IH _ _ _ _ _ Hrun) as (evs2 & Htrace2 & Hres & _).
    exists (([EvLog INFO (LogFetchingPage page endpoint)] ++ evs1) ++ evs2).
    split. { by rewrite Htrace2, Htrace, <- !app_assoc. }
    rewrite pages_app, Hpages1. split; [by rewrite Hcat|].
    intros d [= <-] Hd. congruence.
  - injection Hrun as <- <-. eexists. split; [exact Htrace|].
    rewrite Hpages1. cbn. unfold page_elements.
    rewrite falsy_no_elements by done. rewrite !app_nil_r.
    split; [done|]. by intros d [= <-] _.
Qed.

(** More fuel does not change a run that ended. *)
Lemma fetch_paginated_loop_fuel_mono fuel self endpoint params page_param per_page
    max_pages : forall fuel' results page st res st',
  (fuel <= fuel')%nat ->
  fetch_paginated_loop http_get fuel self endpoint params page_param per_page
    max_pages results page st = (Returned res, st') ->
  fetch_paginated_loop http_get fuel' self endpoint params page_param per_page
    max_pages results page st = (Returned res, st').
Proof.
  induction fuel as [|fuel IH]; intros fuel' results page st res st' Hle Hrun; [done|].
  destruct fuel' as [|fuel']; [lia|].
  rewrite fetch_paginated_loop_unfold in Hrun |- *.
  destruct (_make_request _ _ _ _ _) as [[data|e|] st1]; [|done|done].
  cbn zeta in *. destruct (negb (truthy (unwrap_envelope data))); [done|].
  destruct (py_iter (unwrap_envelope data)) as [elements|]; [|done].
  destruct (page_limit_reached max_pages page); [done|].
  destruct (Z.of_nat (length elements) <? per_page); [done|].
  apply IH; [lia|done].
Qed.

(** C3. Whenever [fetch_paginated] returns, its result is the concatenation,
    in fetch order, of the elements of the pages it fetched (the bodies of the
    successful responses its trace records), each page's elements in their
    own order; if the first page has no items the result is empty and no
    other page was fetched. The result does not depend on the fuel: any larger
    budget gives the same run. *)
Theorem fetch_paginated_concatenates fuel self endpoint params page_param per_page
    max_pages st res st' :
  fetch_paginated http_get fuel self endpoint params page_param per_page max_pages st
  = (Returned res, st') ->
  exists evs,
    trace st' = trace st ++ evs /\
    res = concat (map page_elements (pages evs)) /\
    (forall data, head (pages evs) = Some data ->
       truthy (unwrap_envelope data) = false ->
       res = [] /\ pages evs = [data]) /\
    (forall fuel', (fuel <= fuel')%nat ->
       fetch_paginated http_get fuel' self endpoint params page_param per_page
         max_pages st = (Returned res, st')).
Proof.
  unfold fetch_paginated. intros Hrun.
  destruct (fetch_paginated_loop_pages _ _ _ _ _ _ _ _ _ _ _ _ Hrun)
    as (evs & Htrace & Hres & Hfirst).
  exists evs. split; [done|]. split; [done|]. split; [done|].
  intros fuel' Hle. by apply (fetch_paginated_loop_fuel_mono fuel).
Qed.

(** *** Envelope unwrapping *)

Lemma make_request_first_success self url params st t body w' :
  0 < max_retries self ->
  http_get (world st) url (snapshot (heap st) params) = (Response 200 t body, w') ->
  _make_request http_get self url params st
  = (Returned body,
     advance st w' [EvGet url (snapshot (heap st) params) 10 (Response 200 t body)]).
Proof.
  intros Hpos Hget. unfold _make_request.
  destruct (Z.to_nat (max_retries self)) as [|fuel] eqn:Hfuel; [lia|].
  by apply make_request_loop_success.
Qed.

Lemma unwrap_envelope_results fields v :
  obj_get "results" fields = Some v -> unwrap_envelope (JObj fields) = v.
Proof. intros H. unfold unwrap_envelope, obj_contains. by rewrite H. Qed.

Lemma unwrap_envelope_array items : unwrap_envelope (JArr items) = JArr items.
Proof. done. Qed.

(** C4. Both fetch methods unwrap the response the same way. When the service
    answers the request with status 200 and a body that is either the bare
    array [items] or an object whose ["results"] key holds the array [items],
    [fetch_incremental] returns the array [items], the page contributes exactly
    [items] to [fetch_paginated], and when that page is the last one (it is
    shorter than [per_page]) [fetch_paginated] returns [items]. *)
Theorem envelope_unwrapping fuel self endpoint since params page_param per_page
    max_pages st t data items :
  0 < max_retries self ->
  (forall p, fst (http_get (world st) (base_url self +:+ endpoint) p)
             = Response 200 t data) ->
  data = JArr items
  \/ (exists fields, data = JObj fields /\ obj_get "results" fields = Some (JArr items)) ->
  unwrap_envelope data = JArr items /\
  page_elements data = items /\
  fst (fetch_incremental http_get self endpoint since params st) = Returned (JArr items) /\
  (Z.of_nat (length items) < per_page ->
   fst (fetch_paginated http_get (S fuel) self endpoint params page_param per_page
          max_pages st) = Returned items).
Proof.
  intros Hpos Hget Hshape.
  assert (unwrap_envelope data = JArr items) as Hunwrap.
  { destruct Hshape as [-> | (fields & -> & Hres)]; [done|].
    by apply unwrap_envelope_results. }
  split; [done|]. split; [unfold page_elements; by rewrite Hunwrap|]. split.
  - rewrite fetch_incremental_unfold.
    pose proof (Hget (snapshot (heap (incremental_request_state st endpoint since params))
                        (Some (length (heap st))))) as Hg.
    destruct (http_get _ _ _) as [r w'] eqn:Hhttp in Hg. cbn in Hg. subst r.
    rewrite (make_request_first_success self _ _
               (incremental_request_state st endpoint since params) _ _ _ Hpos Hhttp).
    cbn. by rewrite Hunwrap.
  - intros Hshort. unfold fetch_paginated. rewrite fetch_paginated_loop_unfold.
    pose proof (Hget (snapshot (heap (page_request_state st endpoint params page_param
                                        per_page 1))
                        (Some (length (heap st))))) as Hg.
    destruct (http_get _ _ _) as [r w'] eqn:Hhttp in Hg. cbn in Hg. subst r.
    rewrite (make_request_first_success self _ _
               (page_request_state st endpoint params page_param per_page 1)
               _ _ _ Hpos Hhttp).
    cbn zeta.
    rewrite Hunwrap. cbn [py_iter app].
    destruct (negb (truthy (JArr items))) eqn:Hempty.
    + apply negb_true_iff, truthy_array_false in Hempty. by subst items.
    + destruct (page_limit_reached max_pages 1); [done|].
      assert ((Z.of_nat (length items) <? per_page) = true) as -> by lia. done.
Qed.

(** *** The caller's dictionaries *)

Lemma fetch_paginated_loop_heap fuel self endpoint params page_param per_page
    max_pages : forall results page st,
  heap st `prefix_of`
    heap (snd (fetch_paginated_loop http_get fuel self endpoint params page_param
                 per_page max_pages results page st)).
Proof.
  induction fuel as [|fuel IH]; intros results page st; [done|].
  rewrite fetch_paginated_loop_unfold.
  destruct (make_request_effect self (base_url self +:+ endpoint)
              (Some (length (heap st)))
              (page_request_state st endpoint params page_param per_page page))
    as (evs1 & Hheap & _).
  destruct (_make_request _ _ _ _ _) as [res st1]. cbn [snd] in Hheap.
  assert (heap st `prefix_of` heap st1) as Hpre.
  { rewrite Hheap. cbn. by apply prefix_app_r. }
  destruct res as [data|e|]; [|done|done]. cbn zeta.
  destruct (negb (truthy (unwrap_envelope data))); [done|].
  destruct (py_iter (unwrap_envelope data)) as [elements|]; [|done].
  destruct (page_limit_reached max_pages page); [done|].
  destruct (Z.of_nat (length elements) <? per_page); [done|].
  etrans; [exact Hpre | apply IH].
Qed.

Lemma fetch_incremental_heap self endpoint since params st :
  heap st `prefix_of`
    heap (snd (fetch_incremental http_get self endpoint since params st)).
Proof.
  rewrite fetch_incremental_unfold.
  destruct (make_request_effect self (base_url self +:+ endpoint)
              (Some (length (heap st)))
              (incremental_request_state st endpoint since params))
    as (evs1 & Hheap & _).
  destruct (_make_request _ _ _ _ _) as [res st1]. cbn [snd] in Hheap.
  assert (heap st `prefix_of` heap st1) as Hpre.
  { rewrite Hheap. cbn. by apply prefix_app_r. }
  by destruct res.
Qed.

Lemma run_calls_heap self cs : forall st,
  heap st `prefix_of` heap (run_calls http_get self cs st).
Proof.
  induction cs as [|c cs IH]; intros st; [done|].
  cbn [run_calls fold_left]. etrans; [|apply IH].
  destruct c; [apply fetch_paginated_loop_heap | apply fetch_incremental_heap].
Qed.

(** C7. After any sequence of [fetch_paginated] and [fetch_incremental] calls,
    whatever their arguments and outcomes, every dictionary object that existed
    before is unchanged: the calls only allocate new objects. In particular the
    dictionary the caller passed as [params] still has exactly its keys, so no
    key (such as the page parameter, ["results"] or ["since"]) was added. *)
Theorem params_not_mutated self cs st :
  heap st `prefix_of` heap (run_calls http_get self cs st) /\
  (forall l d, heap st !! l = Some d ->
     heap (run_calls http_get self cs st) !! l = Some d /\
     deref (heap (run_calls http_get self cs st)) l = d /\
     forall key, d !! key = None ->
       deref (heap (run_calls http_get self cs st)) l !! key = None).
Proof.
  pose proof (run_calls_heap self cs st) as Hpre. split; [done|].
  intros l d Hl.
  assert (heap (run_calls http_get self cs st) !! l = Some d) as Hl'
    by (by eapply prefix_lookup_Some).
  assert (deref (heap (run_calls http_get self cs st)) l = d) as Hd
    by (by apply list_lookup_total_correct).
  split; [done|]. split; [done|]. intros key Hkey. by rewrite Hd.
Qed.

(** *** The incremental request *)

Lemma query_params_of_cursor h params s :
  s <> "" ->
  query_params_of h params (Some s) = <["since" := JStr s]> (base_params h params).
Proof.
  intros Hs. unfold query_params_of.
  destruct (String.eqb s "") eqn:Heq; [|done].
  by apply String.eqb_eq in Heq.
Qed.

(** C9, as the code has it. [fetch_incremental] invokes [_make_request] once,
    on a new dictionary, and returns the unwrapped result: there is no
    pagination loop, and every attempt of that request (at most [max_retries])
    carries the same parameters. When a non-empty [since] cursor is supplied,
    these parameters are the caller's with ["since"] set to the cursor. When
    [since] is omitted or is the empty string, they are exactly the caller's
    parameters: no ["since"] key is added (the key is absent unless the caller's
    own dictionary has it). *)
Theorem fetch_incremental_single_request self endpoint since params st :
  fetch_incremental http_get self endpoint since params st
  = (match _make_request http_get self (base_url self +:+ endpoint)
             (Some (length (heap st)))
             (incremental_request_state st endpoint since params) with
     | (Returned data, st1) => (Returned (unwrap_envelope data), st1)
     | (Raised e, st1) => (Raised e, st1)
     | (OutOfFuel, st1) => (OutOfFuel, st1)
     end) /\
  (exists evs,
     trace (snd (fetch_incremental http_get self endpoint since params st))
     = trace st ++ EvLog INFO (LogFetchingIncremental endpoint since) :: evs /\
     sent_params evs
     = map (fun _ => Some (query_params_of (heap st) params since)) (responses evs) /\
     (length (responses evs) <= Z.to_nat (max_retries self))%nat /\
     (length (pages evs) <= 1)%nat) /\
  (forall s, since = Some s -> s <> "" ->
     query_params_of (heap st) params since !! "since" = Some (JStr s) /\
     forall key, key <> "since" ->
       query_params_of (heap st) params since !! key
       = base_params (heap st) params !! key) /\
  (since = None \/ since = Some "" ->
   query_params_of (heap st) params since = base_params (heap st) params).
Proof.
  split; [apply fetch_incremental_unfold|]. split.
  - rewrite fetch_incremental_unfold.
    destruct (make_request_effect self (base_url self +:+ endpoint)
                (Some (length (heap st)))
                (incremental_request_state st endpoint since params))
      as (evs & _ & Htrace & Hsent & Hbound & Hpages).
    cbn [incremental_request_state heap trace] in Htrace, Hsent.
    rewrite snapshot_fresh in Hsent. rewrite <- app_assoc in Htrace.
    exists evs. destruct (_make_request _ _ _ _ _) as [[data|e|] st1];
      cbn [fst snd] in *; [| |done];
      rewrite Hpages; cbn; (split; [done|]); (split; [done|]); split; lia.
  - split.
    + intros s -> Hs. rewrite query_params_of_cursor by done. split.
      * apply lookup_insert_eq.
      * intros key Hkey. by apply lookup_insert_ne.
    + by intros [-> | ->].
Qed.

(** *** A page limit of zero *)

(** The loop depends on [max_pages] only through the limit test. *)
Lemma fetch_paginated_loop_limit_ext fuel self endpoint params page_param per_page
    max_pages max_pages' :
  (forall page, page_limit_reached max_pages page = page_limit_reached max_pages' page) ->
  forall results page st,
    fetch_paginated_loop http_get fuel self endpoint params page_param per_page
      max_pages results page st
    = fetch_paginated_loop http_get fuel self endpoint params page_param per_page
        max_pages' results page st.
Proof.
  intros Hext. induction fuel as [|fuel IH]; intros results page st; [done|].
  rewrite !fetch_paginated_loop_unfold.
  destruct (_make_request _ _ _ _ _) as [[data|e|] st1]; [|done|done].
  cbn zeta. destruct (negb (truthy (unwrap_envelope data))); [done|].
  destruct (py_iter (unwrap_envelope data)) as [elements|]; [|done].
  rewrite Hext. destruct (page_limit_reached max_pages' page); [done|].
  destruct (Z.of_nat (length elements) <? per_page); [done|]. apply IH.
Qed.

(** *** A page limit bounds the work *)

Lemma fetch_paginated_loop_bounded m self endpoint params page_param per_page :
  m <> 0 ->
  forall fuel results page st,
    (Z.to_nat (Z.max 1 (m - page + 1)) <= fuel)%nat ->
    fst (fetch_paginated_loop http_get fuel self endpoint params page_param per_page
           (Some m) results page st) <> OutOfFuel /\
    exists evs,
      trace (snd (fetch_paginated_loop http_get fuel self endpoint params page_param
                    per_page (Some m) results page st)) = trace st ++ evs /\
      (length (pages evs) <= Z.to_nat (Z.max 1 (m - page + 1)))%nat.
Proof.
  intros Hm. induction fuel as [|fuel IH]; intros results page st Hfuel; [lia|].
  rewrite fetch_paginated_loop_unfold.
  destruct (make_request_effect self (base_url self +:+ endpoint)
              (Some (length (heap st)))
              (page_request_state st endpoint params page_param per_page page))
    as (evs1 & _ & Htrace & _ & _ & Hres).
  cbn [page_request_state trace] in Htrace. rewrite <- app_assoc in Htrace.
  destruct (_make_request _ _ _ _ _) as [[data|e|] st1]; cbn [fst snd] in *; [| |done].
  - assert (pages ([EvLog INFO (LogFetchingPage page endpoint)] ++ evs1) = [data])
      as Hpages1 by (by rewrite pages_app, Hres).
    assert (forall r : result (list json), r <> OutOfFuel ->
              (r, st1).1 <> OutOfFuel /\
              exists evs, trace (r, st1).2 = trace st ++ evs /\
                (length (pages evs) <= Z.to_nat (Z.max 1 (m - page + 1)))%nat) as Hstop.
    { intros r Hr. split; [done|]. eexists. split; [exact Htrace|].
      rewrite Hpages1. cbn. lia. }
    cbn zeta. destruct (negb (truthy (unwrap_envelope data))); [by apply Hstop|].
    destruct (py_iter (unwrap_envelope data)) as [elements|]; [|by apply Hstop].
    destruct (page_limit_reached (Some m) page) eqn:Hlimit; [by apply Hstop|].
    destruct (Z.of_nat (length elements) <? per_page); [by apply Hstop|].
    assert (page < m) as Hlt.
    { unfold page_limit_reached in Hlimit.
      apply andb_false_iff in Hlimit as [Hz | Hlt]; lia. }
    destruct (IH (results ++ elements) (page + 1) st1 ltac:(lia))
      as (Hfuel' & evs2 & Htrace2 & Hcount).
    split; [exact Hfuel'|].
    exists (([EvLog INFO (LogFetchingPage page endpoint)] ++ evs1) ++ evs2).
    split. { by rewrite Htrace2, Htrace, <- !app_assoc. }
    rewrite pages_app, Hpages1, length_app. cbn [length]. lia.
  - split; [done|]. eexists. split; [exact Htrace|].
    rewrite pages_app, Hres. cbn. lia.
Qed.

(** X2. With a page limit [max_pages = m >= 1], [fetch_paginated] needs no more
    than [m] iterations (it returns or raises for every fuel from [m] on) and
    fetches at most [m] pages. *)
Theorem fetch_paginated_page_limit m fuel self endpoint params page_param per_page st :
  0 < m ->
  (Z.to_nat m <= fuel)%nat ->
  fst (fetch_paginated http_get fuel self endpoint params page_param per_page
         (Some m) st) <> OutOfFuel /\
  exists evs,
    trace (snd (fetch_paginated http_get fuel self endpoint params page_param per_page
                  (Some m) st)) = trace st ++ evs /\
    (length (pages evs) <= Z.to_nat m)%nat.
Proof.
  intros Hm Hfuel. unfold fetch_paginated.
  destruct (fetch_paginated_loop_bounded m self endpoint params page_param per_page
              ltac:(lia) fuel [] 1 st ltac:(lia)) as (Hres & evs & Htrace & Hcount).
  split; [done|]. exists evs. split; [done|]. lia.
Qed.

(** *** Further properties of the retry loop *)

Lemma failures_all_failed rs : all_failed rs = true -> failures rs = rs.
Proof.
  induction rs as [|r rs IH]; [done|]. unfold all_failed, failures in *.
  cbn [forallb List.filter]. intros H.
  apply andb_prop in H as [Hr Hrest]. rewrite Hr. by rewrite (IH Hrest).
Qed.

Lemma failures_app a b : failures (a ++ b) = failures a ++ failures b.
Proof. apply List.filter_app. Qed.

Lemma total_delay_snoc delays d :
  Qeq (total_delay (delays ++ [d])) (Qplus (total_delay delays) d).
Proof.
  unfold total_delay. induction delays as [|x delays IH]; cbn [app fold_right].
  - ring.
  - rewrite IH. ring.
Qed.

(** The delays of [k] consecutive failed attempts add up to
    [backoff_factor * (2^k - 1)]. *)
Lemma total_delay_geometric self (k : nat) :
  Qeq (total_delay (map (fun i => sleep_time_of self (0 + Z.of_nat i)) (seq 1 k)))
      (Qmult (backoff_factor self) (Qminus (inject_Z (2 ^ Z.of_nat k)) (inject_Z 1))).
Proof.
  induction k as [|k IH].
  - change (Qeq (inject_Z 0)
              (Qmult (backoff_factor self) (Qminus (inject_Z 1) (inject_Z 1)))).
    unfold inject_Z. ring.
  - rewrite seq_S, map_app. cbn [map]. rewrite total_delay_snoc, IH.
    unfold sleep_time_of.
    replace (0 + Z.of_nat (1 + k) - 1) with (Z.of_nat k) by lia.
    replace (Z.of_nat (S k)) with (Z.of_nat k + 1) by lia.
    rewrite Z.pow_add_r by lia. rewrite inject_Z_mult.
    change (inject_Z (2 ^ 1)) with (inject_Z 2). ring.
Qed.

(** X3. Provided the backoff schedule is in range (the factor is not
    negative, [max_retries] is at most 1024 and the longest delay is at most
    [2 ** 33] seconds), the time spent sleeping in a run of [_make_request] is
    [backoff_factor * (2^k - 1)], where [k] is the number of failed attempts;
    when the run ends in exhaustion (and [max_retries] is not negative), [k] is
    [max_retries]. With the default factor 0.5, five failed attempts cost 15.5
    seconds. *)
Theorem total_backoff_delay self url params st :
  backoff_in_range self = true ->
  exists evs,
    trace (snd (_make_request http_get self url params st)) = trace st ++ evs /\
    Qeq (total_delay (sleeps evs))
        (Qmult (backoff_factor self)
           (Qminus (inject_Z (2 ^ Z.of_nat (length (failures (responses evs)))))
                   (inject_Z 1))) /\
    (fst (_make_request http_get self url params st) = Raised (exhausted self url) ->
     0 <= max_retries self ->
     Z.of_nat (length (failures (responses evs))) = max_retries self) /\
    (backoff_factor self = Qmake 1 2 ->
     length (failures (responses evs)) = 5%nat ->
     Qeq (total_delay (sleeps evs)) (Qmake 31 2)).
Proof.
  intros Hrange.
  destruct (make_request_run self url params st Hrange)
    as (k & rs & w & Hk & Hrep & Hall & Hcase).
  assert (length rs = k) as Hlen.
  { pose proof (replay_length k (world st) url (snapshot (heap st) params)) as H.
    by rewrite Hrep in H. }
  assert (exists evs,
            _make_request http_get self url params st
            = (fst (_make_request http_get self url params st),
               advance st (world (snd (_make_request http_get self url params st))) evs) /\
            sleeps evs
            = map (fun i => sleep_time_of self (0 + Z.of_nat i)) (seq 1 (length rs)) /\
            failures (responses evs) = rs /\
            (fst (_make_request http_get self url params st)
             = Raised (exhausted self url) ->
             k = Z.to_nat (max_retries self))) as (evs & Hrun & Hsleeps & Hfail & Hend).
  { destruct Hcase as [[Hkn Hrun] | [(Hlt & t & body & w' & Hget & Hrun)
                                    | (Hlt & t & msg & w' & Hget & Hrun)]];
      rewrite Hrun; cbn [fst snd advance world]; eexists; (split; [reflexivity|]).
    - rewrite responses_failed_attempts, failures_all_failed, sleeps_failed_attempts
        by done. done.
    - rewrite responses_app, failures_app, responses_failed_attempts,
        failures_all_failed, sleeps_app, sleeps_failed_attempts by done.
      cbn [responses flat_map failures List.filter failed Z.eqb Pos.eqb negb app
           sleeps].
      by rewrite !app_nil_r.
    - rewrite responses_app, failures_app, responses_failed_attempts,
        failures_all_failed, sleeps_app, sleeps_failed_attempts by done.
      cbn [responses flat_map failures List.filter failed Z.eqb Pos.eqb negb app
           sleeps].
      by rewrite !app_nil_r. }
  assert (Qeq (total_delay (sleeps evs))
            (Qmult (backoff_factor self)
               (Qminus (inject_Z (2 ^ Z.of_nat (length (failures (responses evs)))))
                  (inject_Z 1)))) as Htotal.
  { rewrite Hsleeps, Hfail. apply total_delay_geometric. }
  exists evs. split; [by rewrite Hrun at 1|]. split; [exact Htotal|]. split.
  - intros Hexhausted Hpos. rewrite Hfail, Hlen, (Hend Hexhausted). lia.
  - intros Hfactor Hfive. rewrite Htotal, Hfactor, Hfive. reflexivity.
Qed.

(** X4. With [max_retries <= 0] no request is ever sent: [_make_request]
    raises the exhaustion exception at once, leaving the state as it was, and
    both fetch methods raise it after their first log record, without a GET and
    without a sleep. *)
Theorem no_retries_no_request self endpoint params st :
  max_retries self <= 0 ->
  (forall url, _make_request http_get self url params st
               = (Raised (exhausted self url), st)) /\
  (forall fuel page_param per_page max_pages,
     exists st',
       fetch_paginated http_get (S fuel) self endpoint params page_param per_page
         max_pages st
       = (Raised (exhausted self (base_url self +:+ endpoint)), st') /\
       trace st' = trace st ++ [EvLog INFO (LogFetchingPage 1 endpoint)] /\
       world st' = world st) /\
  (forall since,
     exists st',
       fetch_incremental http_get self endpoint since params st
       = (Raised (exhausted self (base_url self +:+ endpoint)), st') /\
       trace st' = trace st ++ [EvLog INFO (LogFetchingIncremental endpoint since)] /\
       world st' = world st).
Proof.
  intros Hmax.
  assert (forall url p st0, _make_request http_get self url p st0
                            = (Raised (exhausted self url), st0)) as Hreq.
  { intros url p st0. unfold _make_request. apply make_request_loop_done. lia. }
  split; [intros url; apply Hreq|]. split.
  - intros fuel page_param per_page max_pages. eexists.
    unfold fetch_paginated. rewrite fetch_paginated_loop_unfold, Hreq. done.
  - intros since. eexists. rewrite fetch_incremental_unfold, Hreq. done.
Qed.

Lemma gets_failed_attempts_uniform self url p retries rs :
  gets (failed_attempts self url p retries rs) = map (EvGet url p 10) rs.
Proof.
  revert retries. induction rs as [|r rs IH]; intros retries; [done|].
  cbn [failed_attempts]. rewrite gets_app, IH. done.
Qed.

(** X5. All the attempts of one [_make_request] call are the same request: the
    same URL, the same parameters (as they were when the call began) and the
    timeout 10. There are at most [max_retries] of them, only the last one can
    have succeeded (status code 200 with a body that parses), and the call
    leaves every dictionary as it was. *)
Theorem attempts_are_uniform self url params st :
  exists evs,
    trace (snd (_make_request http_get self url params st)) = trace st ++ evs /\
    gets evs = map (EvGet url (snapshot (heap st) params) 10) (responses evs) /\
    (length (gets evs) <= Z.to_nat (max_retries self))%nat /\
    (forall i r, responses evs !! i = Some r -> succeeded r = true ->
       S i = length (responses evs)) /\
    heap (snd (_make_request http_get self url params st)) = heap st.
Proof.
  unfold _make_request.
  destruct (make_request_loop_effect (Z.to_nat (max_retries self))
              (Z.to_nat (max_retries self)) self url params 0 st)
    as (evs & Hheap & Htrace & Hgets & Hsent & Hlen & Hlogs & Hlast & Hres);
    [f_equal; lia | lia |].
  exists evs. split; [done|]. split; [done|].
  split; [by rewrite Hgets, length_map|]. split; done.
Qed.

(** *** The requests of a paginated fetch *)

Lemma page_logs_failed_attempts self url p retries rs :
  page_logs (failed_attempts self url p retries rs) = [].
Proof.
  revert retries. induction rs as [|r rs IH]; intros retries; [done|].
  cbn [failed_attempts]. rewrite page_logs_app, IH.
  by destruct r.
Qed.

(** What one request adds to the trace: attempts that all carry the same
    parameters, at most [max_retries] of them, and no page announcement. *)
Lemma make_request_trace self url params st :
  exists evs,
    trace (snd (_make_request http_get self url params st)) = trace st ++ evs /\
    heap (snd (_make_request http_get self url params st)) = heap st /\
    sent_params evs = replicate (length (sent_params evs)) (snapshot (heap st) params) /\
    (length (sent_params evs) <= Z.to_nat (max_retries self))%nat /\
    page_logs evs = [].
Proof.
  unfold _make_request.
  destruct (make_request_loop_effect (Z.to_nat (max_retries self))
              (Z.to_nat (max_retries self)) self url params 0 st)
    as (evs & Hheap & Htrace & Hgets & Hsent & Hlen & Hlogs & Hlast & Hres);
    [f_equal; lia | lia |].
  assert (forall (p : option dict) (l : list http_result),
            map (fun _ => p) l = replicate (length l) p) as Hconst.
  { intros p l. induction l as [|x l IH]; [done|]. cbn. by rewrite IH. }
  exists evs. split; [done|]. split; [done|].
  rewrite Hsent, length_map. split; [apply Hconst|]. split; done.
Qed.

Lemma base_params_live (h h' : list dict) params :
  live h params -> base_params (h ++ h') params = base_params h params.
Proof.
  destruct params as [l|]; [|done]. cbn. intros Hl.
  unfold base_params, snapshot, deref. cbn.
  rewrite !list_lookup_total_alt. by rewrite lookup_app_l.
Qed.

Lemma live_app (h h' : list dict) params : live h params -> live (h ++ h') params.
Proof. destruct params as [l|]; [|done]. cbn. rewrite length_app. lia. Qed.

Lemma page_requests_ext f g page attempts :
  (forall k, f k = g k) -> page_requests f page attempts = page_requests g page attempts.
Proof.
  intros Hext. revert page. induction attempts as [|c rest IH]; intros page; [done|].
  cbn. by rewrite Hext, IH.
Qed.

Lemma fetch_paginated_loop_requests self endpoint params page_param per_page
    max_pages : forall fuel results page st,
  live (heap st) params ->
  exists evs attempts,
    trace (snd (fetch_paginated_loop http_get fuel self endpoint params page_param
                  per_page max_pages results page st)) = trace st ++ evs /\
    sent_params evs
    = page_requests (paged_params_of (heap st) params page_param per_page) page attempts /\
    page_logs evs = map (fun i => page + Z.of_nat i) (seq 0 (length attempts)) /\
    Forall (fun c => (c <= Z.to_nat (max_retries self))%nat) attempts /\
    (length attempts <= fuel)%nat.
Proof.
  induction fuel as [|fuel IH]; intros results page st Hlive.
  - exists [], []. cbn. by rewrite app_nil_r.
  - rewrite fetch_paginated_loop_unfold.
    destruct (make_request_trace self (base_url self +:+ endpoint)
                (Some (length (heap st)))
                (page_request_state st endpoint params page_param per_page page))
      as (evs1 & Htrace & Hheap & Hsent & Hcount & Hlogs).
    cbn [page_request_state trace heap] in Htrace, Hheap, Hsent.
    rewrite snapshot_fresh in Hsent. rewrite <- app_assoc in Htrace.
    set (c := length (sent_params evs1)) in *.
    assert (exists evs attempts,
              trace (snd (_make_request http_get self (base_url self +:+ endpoint)
                            (Some (length (heap st)))
                            (page_request_state st endpoint params page_param
                               per_page page))) = trace st ++ evs /\
              sent_params evs
              = page_requests (paged_params_of (heap st) params page_param per_page)
                  page attempts /\
              page_logs evs = map (fun i => page + Z.of_nat i) (seq 0 (length attempts)) /\
              Forall (fun c => (c <= Z.to_nat (max_retries self))%nat) attempts /\
              (length attempts <= S fuel)%nat) as Hstop.
    { exists ([EvLog INFO (LogFetchingPage page endpoint)] ++ evs1), [c].
      split; [exact Htrace|]. rewrite sent_params_app, page_logs_app, Hlogs.
      cbn [sent_params page_logs flat_map app page_requests length seq map].
      rewrite app_nil_r, Z.add_0_r. split; [done|]. split; [done|].
      split; [by apply Forall_singleton|lia]. }
    destruct (_make_request _ _ _ _ _) as [[data|e|] st1];
      cbn [fst snd] in *; [|exact Hstop|exact Hstop].
    cbn zeta. destruct (negb (truthy (unwrap_envelope data))); [exact Hstop|].
    destruct (py_iter (unwrap_envelope data)) as [elements|]; [|exact Hstop].
    destruct (page_limit_reached max_pages page); [exact Hstop|].
    destruct (Z.of_nat (length elements) <? per_page); [exact Hstop|].
    destruct (IH (results ++ elements) (page + 1) st1)
      as (evs2 & attempts & Htrace2 & Hsent2 & Hlogs2 & Hall & Hlen).
    { rewrite Hheap. by apply live_app. }
    exists (([EvLog INFO (LogFetchingPage page endpoint)] ++ evs1) ++ evs2), (c :: attempts).
    split. { by rewrite Htrace2, Htrace, <- !app_assoc. }
    rewrite !sent_params_app, !page_logs_app, Hlogs, Hsent2, Hlogs2.
    cbn [sent_params page_logs flat_map app page_requests length seq map].
    change (Z.of_nat 0) with 0. rewrite Z.add_0_r. split; [|split; [|split]].
    + rewrite Hsent. f_equal. apply page_requests_ext. intros k.
      unfold paged_params_of. rewrite Hheap. by rewrite base_params_live.
    + f_equal. rewrite <- (seq_shift (length attempts) 0), List.map_map.
      apply map_ext. intros i. lia.
    + by apply Forall_cons.
    + lia.
Qed.

Lemma paged_params_of_lookup (h : list dict) params page_param per_page page :
  paged_params_of h params page_param per_page page !! "results" = Some (JInt per_page) /\
  (page_param <> "results" ->
   paged_params_of h params page_param per_page page !! page_param = Some (JInt page)) /\
  (forall key, key <> "results" -> key <> page_param ->
     paged_params_of h params page_param per_page page !! key
     = base_params h params !! key).
Proof.
  unfold paged_params_of. split; [apply lookup_insert_eq|]. split.
  - intros Hne. rewrite lookup_insert_ne by done. apply lookup_insert_eq.
  - intros key H1 H2. by rewrite !lookup_insert_ne.
Qed.

(** X6. [fetch_paginated] asks for the pages one after the other, starting at
    page 1: the page numbers it announces are 1, 2, ..., n, and the requests
    sent are, page by page, that page's attempts (at most [max_retries] each),
    every one carrying the caller's parameters with ["results"] set to
    [per_page] and the page parameter set to the page number. These two entries
    override the caller's; every other key is passed on unchanged. (When
    [page_param] is ["results"] itself the page number is overwritten by
    [per_page].) *)
Theorem pages_requested_in_order fuel self endpoint params page_param per_page
    max_pages st :
  live (heap st) params ->
  exists evs attempts,
    trace (snd (fetch_paginated http_get fuel self endpoint params page_param per_page
                  max_pages st)) = trace st ++ evs /\
    page_logs evs = map (fun i => 1 + Z.of_nat i) (seq 0 (length attempts)) /\
    sent_params evs
    = page_requests (paged_params_of (heap st) params page_param per_page) 1 attempts /\
    Forall (fun c => (c <= Z.to_nat (max_retries self))%nat) attempts /\
    (length attempts <= fuel)%nat /\
    (forall page,
       paged_params_of (heap st) params page_param per_page page !! "results"
       = Some (JInt per_page) /\
       (page_param <> "results" ->
        paged_params_of (heap st) params page_param per_page page !! page_param
        = Some (JInt page)) /\
       (forall key, key <> "results" -> key <> page_param ->
          paged_params_of (heap st) params page_param per_page page !! key
          = base_params (heap st) params !! key)).
Proof.
  intros Hlive. unfold fetch_paginated.
  destruct (fetch_paginated_loop_requests self endpoint params page_param per_page
              max_pages fuel [] 1 st Hlive)
    as (evs & attempts & Htrace & Hsent & Hlogs & Hall & Hlen).
  exists evs, attempts. repeat (split; [done|]).
  intros page. apply paged_params_of_lookup.
Qed.

(** *** Why pagination stops *)

Lemma fetch_paginated_loop_stop self endpoint params page_param per_page max_pages :
  forall fuel results page st res st',
    fetch_paginated_loop http_get fuel self endpoint params page_param per_page
      max_pages results page st = (Returned res, st') ->
    exists evs full last,
      trace st' = trace st ++ evs /\
      pages evs = full ++ [last] /\
      (forall i data, full !! i = Some data ->
         truthy (unwrap_envelope data) = true /\
         per_page <= Z.of_nat (length (page_elements data)) /\
         page_limit_reached max_pages (page + Z.of_nat i) = false) /\
      (truthy (unwrap_envelope last) = false
       \/ page_limit_reached max_pages (page + Z.of_nat (length full)) = true
       \/ Z.of_nat (length (page_elements last)) < per_page).
Proof.
  induction fuel as [|fuel IH]; intros results page st res st' Hrun; [done|].
  rewrite fetch_paginated_loop_unfold in Hrun.
  destruct (make_request_effect self (base_url self +:+ endpoint)
              (Some (length (heap st)))
              (page_request_state st endpoint params page_param per_page page))
    as (evs1 & _ & Htrace & _ & _ & Hpages).
  destruct (_make_request _ _ _ _ _) as [[data|e|] st1]; [|done|done].
  cbn [fst snd] in *. cbn zeta in Hrun. cbn [page_request_state trace] in Htrace.
  rewrite <- app_assoc in Htrace.
  assert (pages ([EvLog INFO (LogFetchingPage page endpoint)] ++ evs1) = [data])
    as Hpages1 by (by rewrite pages_app, Hpages).
  assert (forall reason : Prop, reason ->
            (reason -> truthy (unwrap_envelope data) = false
                       \/ page_limit_reached max_pages (page + Z.of_nat 0) = true
                       \/ Z.of_nat (length (page_elements data)) < per_page) ->
            exists evs full last,
              trace st1 = trace st ++ evs /\
              pages evs = full ++ [last] /\
              (forall i d, full !! i = Some d ->
                 truthy (unwrap_envelope d) = true /\
                 per_page <= Z.of_nat (length (page_elements d)) /\
                 page_limit_reached max_pages (page + Z.of_nat i) = false) /\
              (truthy (unwrap_envelope last) = false
               \/ page_limit_reached max_pages (page + Z.of_nat (length full)) = true
               \/ Z.of_nat (length (page_elements last)) < per_page)) as Hstop.
  { intros reason Hreason Hwhy. eexists _, [], data. split; [exact Htrace|].
    split; [exact Hpages1|]. split; [done|]. by apply Hwhy. }
  destruct (truthy (unwrap_envelope data)) eqn:Htruthy; cbn [negb] in Hrun.
  - destruct (py_iter (unwrap_envelope data)) as [elements|] eqn:Hiter; [|done].
    assert (page_elements data = elements) as Helements
      by (unfold page_elements; by rewrite Hiter).
    destruct (page_limit_reached max_pages page) eqn:Hlimit.
    { injection Hrun as <- <-. apply (Hstop True I). intros _. right. left.
      by rewrite Z.add_0_r. }
    destruct (Z.of_nat (length elements) <? per_page) eqn:Hshort.
    { injection Hrun as <- <-. apply (Hstop True I). intros _. right. right.
      rewrite Helements. lia. }
    destruct (IH _ _ _ _ _ Hrun) as (evs2 & full & last & Htrace2 & Hpages2 & Hfull & Hlast).
    exists (([EvLog INFO (LogFetchingPage page endpoint)] ++ evs1) ++ evs2),
      (data :: full), last.
    split. { by rewrite Htrace2, Htrace, <- !app_assoc. }
    split. { by rewrite pages_app, Hpages1, Hpages2. }
    split.
    + intros [|i] d Hd.
      * injection Hd as <-. rewrite Helements, Z.add_0_r. split; [done|]. split; [lia|done].
      * cbn in Hd. destruct (Hfull i d Hd) as (H1 & H2 & H3).
        split; [done|]. split; [done|].
        replace (page + Z.of_nat (S i)) with (page + 1 + Z.of_nat i) by lia. done.
    + cbn [length].
      replace (page + Z.of_nat (S (length full)))
        with (page + 1 + Z.of_nat (length full)) by lia. done.
  - injection Hrun as <- <-. apply (Hstop True I). intros _. by left.
Qed.

(** X7. [fetch_paginated] stops only for a reason. When it returns, the pages
    it fetched are some full pages followed by one last page: every page
    before the last had items, at least [per_page] elements and was below the
    page limit; the last page either had no items, or reached the page limit,
    or had fewer than [per_page] elements. *)
Theorem pagination_stops_for_a_reason fuel self endpoint params page_param per_page
    max_pages st res st' :
  fetch_paginated http_get fuel self endpoint params page_param per_page max_pages st
  = (Returned res, st') ->
  exists evs full last,
    trace st' = trace st ++ evs /\
    pages evs = full ++ [last] /\
    (forall i data, full !! i = Some data ->
       truthy (unwrap_envelope data) = true /\
       per_page <= Z.of_nat (length (page_elements data)) /\
       page_limit_reached max_pages (1 + Z.of_nat i) = false) /\
    (truthy (unwrap_envelope last) = false
     \/ page_limit_reached max_pages (1 + Z.of_nat (length full)) = true
     \/ Z.of_nat (length (page_elements last)) < per_page).
Proof. apply fetch_paginated_loop_stop. Qed.

(** *** Pages that are not lists *)

Lemma not_iterable_values v :
  truthy v = true -> py_iter v = None ->
  (v = JBool true) \/ (exists n, v = JInt n /\ n <> 0) \/ (exists x, v = JFloat x).
Proof.
  destruct v as [|b|n|x|s|items|fields]; cbn; try done.
  - intros -> _. by left.
  - intros Hn _. right. left. exists n. split; [done|]. lia.
  - intros _ _. right. right. by exists x.
Qed.

(** X8. A page whose items are a number or [true] (a body such as
    [{"results": 5}], or a bare scalar) makes [fetch_paginated] raise
    [TypeError] from [results.extend], losing whatever it had accumulated,
    while [fetch_incremental] hands the same value back to its caller. *)
Theorem scalar_page_raises_type_error fuel self endpoint since params page_param
    per_page max_pages results page st t data :
  0 < max_retries self ->
  (forall p, fst (http_get (world st) (base_url self +:+ endpoint) p)
             = Response 200 t data) ->
  truthy (unwrap_envelope data) = true ->
  py_iter (unwrap_envelope data) = None ->
  fst (fetch_paginated_loop http_get (S fuel) self endpoint params page_param per_page
         max_pages results page st)
  = Raised (TypeError ("'" +:+ type_name (unwrap_envelope data)
                       +:+ "' object is not iterable")) /\
  fst (fetch_incremental http_get self endpoint since params st)
  = Returned (unwrap_envelope data) /\
  (unwrap_envelope data = JBool true
   \/ (exists n, unwrap_envelope data = JInt n /\ n <> 0)
   \/ (exists x, unwrap_envelope data = JFloat x)).
Proof.
  intros Hpos Hget Htruthy Hiter. split; [|split].
  - rewrite fetch_paginated_loop_unfold.
    pose proof (Hget (snapshot (heap (page_request_state st endpoint params page_param
                                        per_page page))
                        (Some (length (heap st))))) as Hg.
    destruct (http_get _ _ _) as [r w'] eqn:Hhttp in Hg. cbn in Hg. subst r.
    rewrite (make_request_first_success self _ _
               (page_request_state st endpoint params page_param per_page page)
               _ _ _ Hpos Hhttp).
    cbn zeta. by rewrite Htruthy, Hiter.
  - rewrite fetch_incremental_unfold.
    pose proof (Hget (snapshot (heap (incremental_request_state st endpoint since params))
                        (Some (length (heap st))))) as Hg.
    destruct (http_get _ _ _) as [r w'] eqn:Hhttp in Hg. cbn in Hg. subst r.
    by rewrite (make_request_first_success self _ _
                  (incremental_request_state st endpoint since params) _ _ _ Hpos Hhttp).
  - by apply not_iterable_values.
Qed.

(** X9. A JSON object without a ["results"] key (an error document, say) is
    not rejected: [fetch_paginated] takes the object itself as the page and
    extends the result with its keys, as strings, so a short such page makes it
    return exactly the list of keys; [fetch_incremental] returns the object.
    The fields are those of a parsed object, whose keys are distinct, and the
    keys are strings of characters up to U+00FF. *)
Theorem object_without_results_yields_keys fuel self endpoint since params page_param
    per_page max_pages st t fields :
  0 < max_retries self ->
  (forall p, fst (http_get (world st) (base_url self +:+ endpoint) p)
             = Response 200 t (JObj fields)) ->
  NoDup (map fst fields) ->
  obj_get "results" fields = None ->
  fields <> [] ->
  Z.of_nat (length fields) < per_page ->
  fst (fetch_paginated http_get (S fuel) self endpoint params page_param per_page
         max_pages st)
  = Returned (map (fun kv => JStr (fst kv)) fields) /\
  fst (fetch_incremental http_get self endpoint since params st)
  = Returned (JObj fields).
Proof.
  intros Hpos Hget Hdistinct Hnone Hne Hshort.
  assert (unwrap_envelope (JObj fields) = JObj fields) as Hunwrap.
  { unfold unwrap_envelope, obj_contains. by rewrite Hnone. }
  split.
  - unfold fetch_paginated. rewrite fetch_paginated_loop_unfold.
    pose proof (Hget (snapshot (heap (page_request_state st endpoint params page_param
                                        per_page 1))
                        (Some (length (heap st))))) as Hg.
    destruct (http_get _ _ _) as [r w'] eqn:Hhttp in Hg. cbn in Hg. subst r.
    rewrite (make_request_first_success self _ _
               (page_request_state st endpoint params page_param per_page 1)
               _ _ _ Hpos Hhttp).
    cbn zeta. rewrite Hunwrap. cbn [py_iter app truthy].
    destruct fields as [|kv fields]; [done|]. cbn [length Nat.eqb negb].
    destruct (page_limit_reached max_pages 1); [done|].
    rewrite length_map.
    assert ((Z.of_nat (length (kv :: fields)) <? per_page) = true) as -> by lia.
    done.
  - rewrite fetch_incremental_unfold.
    pose proof (Hget (snapshot (heap (incremental_request_state st endpoint since params))
                        (Some (length (heap st))))) as Hg.
    destruct (http_get _ _ _) as [r w'] eqn:Hhttp in Hg. cbn in Hg. subst r.
    rewrite (make_request_first_success self _ _
               (incremental_request_state st endpoint since params) _ _ _ Hpos Hhttp).
    cbn [fst]. by rewrite Hunwrap.
Qed.

(** *** Page limits below one *)

Lemma fetch_paginated_loop_limit_ext_from self endpoint params page_param per_page
    max_pages max_pages' : forall fuel results page st,
  (forall p, page <= p -> page_limit_reached max_pages p = page_limit_reached max_pages' p) ->
  fetch_paginated_loop http_get fuel self endpoint params page_param per_page
    max_pages results page st
  = fetch_paginated_loop http_get fuel self endpoint params page_param per_page
      max_pages' results page st.
Proof.
  induction fuel as [|fuel IH]; intros results page st Hext; [done|].
  rewrite !fetch_paginated_loop_unfold.
  destruct (_make_request _ _ _ _ _) as [[data|e|] st1]; [|done|done].
  cbn zeta. destruct (negb (truthy (unwrap_envelope data))); [done|].
  destruct (py_iter (unwrap_envelope data)) as [elements|]; [|done].
  rewrite (Hext page) by lia. destruct (page_limit_reached max_pages' page); [done|].
  destruct (Z.of_nat (length elements) <? per_page); [done|].
  apply IH. intros p Hp. apply Hext. lia.
Qed.

(** X10. A negative [max_pages] is not "no limit": it is truthy and every page
    number is at least as large, so the fetch runs exactly as with
    [max_pages = 1] and stops after the first page that has items. *)
Theorem negative_page_limit_is_one fuel self endpoint params page_param per_page m st :
  m < 0 ->
  fetch_paginated http_get fuel self endpoint params page_param per_page (Some m) st
  = fetch_paginated http_get fuel self endpoint params page_param per_page (Some 1) st
  /\
  exists evs,
    trace (snd (fetch_paginated http_get (S fuel) self endpoint params page_param
                  per_page (Some m) st)) = trace st ++ evs /\
    (length (pages evs) <= 1)%nat.
Proof.
  intros Hm.
  assert (forall fuel',
            fetch_paginated http_get fuel' self endpoint params page_param per_page
              (Some m) st
            = fetch_paginated http_get fuel' self endpoint params page_param per_page
                (Some 1) st) as Heq.
  { intros fuel'. unfold fetch_paginated. apply fetch_paginated_loop_limit_ext_from.
    intros p Hp. unfold page_limit_reached.
    assert ((m =? 0) = false) as -> by lia. assert ((p >=? m) = true) as -> by lia.
    assert ((p >=? 1) = true) as -> by lia. done. }
  split; [apply Heq|]. rewrite Heq. unfold fetch_paginated.
  destruct (fetch_paginated_loop_bounded 1 self endpoint params page_param per_page
              ltac:(lia) (S fuel) [] 1 st ltac:(lia)) as (_ & evs & Htrace & Hcount).
  exists evs. split; [done|]. cbn in Hcount. lia.
Qed.

(** *** The request budget *)

Lemma length_gets_sent_params evs : length (gets evs) = length (sent_params evs).
Proof.
  induction evs as [|e evs IH]; [done|].
  unfold gets, sent_params in *.
  destruct e; cbn [List.filter is_get flat_map app length]; by rewrite ?IH.
Qed.

Lemma page_requests_length paged page attempts (bound : nat) :
  Forall (fun c => (c <= bound)%nat) attempts ->
  (length (page_requests paged page attempts) <= length attempts * bound)%nat.
Proof.
  intros Hall. revert page. induction Hall as [|c rest Hc Hrest IH]; intros page; [done|].
  cbn [page_requests length]. rewrite length_app, length_replicate.
  specialize (IH (page + 1)). lia.
Qed.

(** With a page limit, the number of page requests is bounded by it. *)
Lemma fetch_paginated_loop_request_count m self endpoint params page_param per_page :
  m <> 0 ->
  forall fuel results page st,
    exists evs (attempts : list nat),
      trace (snd (fetch_paginated_loop http_get fuel self endpoint params page_param
                    per_page (Some m) results page st)) = trace st ++ evs /\
      length (sent_params evs) = sum_list attempts /\
      Forall (fun c => (c <= Z.to_nat (max_retries self))%nat) attempts /\
      (length attempts <= Z.to_nat (Z.max 1 (m - page + 1)))%nat.
Proof.
  intros Hm. induction fuel as [|fuel IH]; intros results page st.
  - exists [], []. cbn. rewrite app_nil_r. repeat split; [done|lia].
  - rewrite fetch_paginated_loop_unfold.
    destruct (make_request_trace self (base_url self +:+ endpoint)
                (Some (length (heap st)))
                (page_request_state st endpoint params page_param per_page page))
      as (evs1 & Htrace & _ & _ & Hcount & _).
    cbn [page_request_state trace] in Htrace. rewrite <- app_assoc in Htrace.
    assert (exists evs (attempts : list nat),
              trace (snd (_make_request http_get self (base_url self +:+ endpoint)
                            (Some (length (heap st)))
                            (page_request_state st endpoint params page_param
                               per_page page))) = trace st ++ evs /\
              length (sent_params evs) = sum_list attempts /\
              Forall (fun c => (c <= Z.to_nat (max_retries self))%nat) attempts /\
              (length attempts <= Z.to_nat (Z.max 1 (m - page + 1)))%nat) as Hstop.
    { exists ([EvLog INFO (LogFetchingPage page endpoint)] ++ evs1),
        [length (sent_params evs1)].
      split; [exact Htrace|]. rewrite sent_params_app. cbn. split; [lia|].
      split; [by apply Forall_singleton|lia]. }
    destruct (_make_request _ _ _ _ _) as [[data|e|] st1];
      cbn [fst snd] in *; [|exact Hstop|exact Hstop].
    cbn zeta. destruct (negb (truthy (unwrap_envelope data))); [exact Hstop|].
    destruct (py_iter (unwrap_envelope data)) as [elements|]; [|exact Hstop].
    destruct (page_limit_reached (Some m) page) eqn:Hlimit; [exact Hstop|].
    destruct (Z.of_nat (length elements) <? per_page); [exact Hstop|].
    assert (page < m) as Hlt.
    { unfold page_limit_reached in Hlimit.
      apply andb_false_iff in Hlimit as [Hz | Hlt]; lia. }
    destruct (IH (results ++ elements) (page + 1) st1)
      as (evs2 & attempts & Htrace2 & Hsent2 & Hall & Hlen).
    exists (([EvLog INFO (LogFetchingPage page endpoint)] ++ evs1) ++ evs2),
      (length (sent_params evs1) :: attempts).
    split. { by rewrite Htrace2, Htrace, <- !app_assoc. }
    rewrite !sent_params_app, !length_app, Hsent2. cbn.
    split; [lia|]. split; [by apply Forall_cons|lia].
Qed.

(** X13. With a page limit [max_pages = m >= 1] and [max_retries = r >= 0],
    one [fetch_paginated] call sends at most [m * r] GET requests, whatever
    the service answers and however the call ends. *)
Theorem request_budget m fuel self endpoint params page_param per_page st :
  0 < m ->
  0 <= max_retries self ->
  exists evs,
    trace (snd (fetch_paginated http_get fuel self endpoint params page_param per_page
                  (Some m) st)) = trace st ++ evs /\
    Z.of_nat (length (gets evs)) <= m * max_retries self.
Proof.
  intros Hm Hr. unfold fetch_paginated.
  destruct (fetch_paginated_loop_request_count m self endpoint params page_param per_page
              ltac:(lia) fuel [] 1 st) as (evs & attempts & Htrace & Hsent & Hall & Hlen).
  exists evs. split; [done|]. rewrite length_gets_sent_params, Hsent.
  assert (sum_list attempts <= length attempts * Z.to_nat (max_retries self))%nat as Hsum.
  { clear -Hall. induction Hall as [|c rest Hc Hrest IH]; cbn; lia. }
  nia.
Qed.

End Properties.

(** * Batching *)

Section Batching.

Context {A : Type}.
Implicit Types (data : list A) (batch_size : Z).

(** The number of batches: none for no data, otherwise the batches but the
    last do not cover the data and all of them do. *)
Lemma range_length_batches n batch_size :
  0 < batch_size ->
  let count := range_length 0 (Z.of_nat n) batch_size in
  (n = O -> count = O) /\
  (n <> O ->
   (0 < count)%nat /\ (Z.of_nat count - 1) * batch_size < Z.of_nat n
   /\ Z.of_nat n <= Z.of_nat count * batch_size).
Proof.
  intros Hpos. unfold range_length.
  assert ((0 <? batch_size) = true) as -> by lia. cbn zeta. split.
  - intros ->. done.
  - intros Hn. assert ((0 <? Z.of_nat n) = true) as -> by lia.
    rewrite Z.sub_0_r.
    pose proof (Z.div_mod (Z.of_nat n - 1) batch_size ltac:(lia)) as Hdiv.
    pose proof (Z.mod_pos_bound (Z.of_nat n - 1) batch_size Hpos) as Hmod.
    assert (0 <= (Z.of_nat n - 1) / batch_size) as Hq
      by (apply Z.div_pos; lia).
    rewrite Z2Nat.id by lia. split; [lia|]. split; nia.
Qed.

(** The [k]-th batch, for [k] below the number of batches, is the slice of
    [batch_size] elements at offset [k * batch_size]. *)
Lemma batch_slice data batch_size k :
  0 < batch_size ->
  Z.of_nat k * batch_size < Z.of_nat (length data) ->
  py_slice data (0 + Z.of_nat k * batch_size) (0 + Z.of_nat k * batch_size + batch_size)
  = take (Z.to_nat batch_size) (drop (k * Z.to_nat batch_size) data).
Proof.
  intros Hpos Hlt. unfold py_slice, slice_index. cbn zeta.
  assert ((0 + Z.of_nat k * batch_size <? 0) = false) as -> by lia.
  assert ((0 + Z.of_nat k * batch_size + batch_size <? 0) = false) as -> by lia.
  replace (Z.to_nat (Z.min (0 + Z.of_nat k * batch_size) (Z.of_nat (length data))))
    with (k * Z.to_nat batch_size)%nat by nia.
  destruct (Z.le_gt_cases (0 + Z.of_nat k * batch_size + batch_size)
              (Z.of_nat (length data))) as [Hin | Hout].
  - f_equal. nia.
  - rewrite !take_ge; [done | rewrite length_drop; nia | rewrite length_drop; nia].
Qed.

Lemma batch_process_slices data batch_size :
  0 < batch_size ->
  batch_process data batch_size
  = Returned (map (fun k => take (Z.to_nat batch_size)
                              (drop (k * Z.to_nat batch_size) data))
                  (seq 0 (range_length 0 (Z.of_nat (length data)) batch_size))).
Proof.
  intros Hpos. unfold batch_process, py_range.
  assert ((batch_size =? 0) = false) as -> by lia.
  f_equal. rewrite List.map_map. apply map_ext_in. intros k Hk.
  apply in_seq in Hk. apply batch_slice; [done|].
  destruct (range_length_batches (length data) batch_size Hpos) as [H0 Hn].
  destruct (length data) as [|n] eqn:Hlen.
  - rewrite H0 in Hk by done. lia.
  - destruct Hn as (_ & Hlast & _); [done|]. nia.
Qed.

Lemma concat_slices data (size count : nat) :
  concat (map (fun k => take size (drop (k * size) data)) (seq 0 count))
  = take (count * size) data.
Proof.
  induction count as [|count IH]; [done|].
  rewrite seq_S, map_app, concat_app, IH. cbn [map concat Nat.add].
  rewrite app_nil_r, take_take_drop. f_equal. lia.
Qed.

(** C8. For a positive [batch_size], [batch_process] yields batches whose
    concatenation is the input; the [k]-th batch is the contiguous slice of
    [batch_size] elements starting at offset [k * batch_size]; no batch is
    empty or longer than [batch_size], and every batch but the last has exactly
    [batch_size] elements. An input of 107 elements with [batch_size = 50]
    gives batches of 50, 50 and 7 elements. *)
Theorem batch_process_partitions data batch_size :
  0 < batch_size ->
  exists batches,
    batch_process data batch_size = Returned batches /\
    concat batches = data /\
    (forall k batch, batches !! k = Some batch ->
       batch = take (Z.to_nat batch_size) (drop (k * Z.to_nat batch_size) data) /\
       (0 < length batch)%nat /\
       Z.of_nat (length batch) <= batch_size /\
       ((S k < length batches)%nat -> Z.of_nat (length batch) = batch_size)) /\
    (length data = 107%nat -> batch_size = 50 ->
     map length batches = [50; 50; 7]%nat).
Proof.
  intros Hpos. eexists. split; [by apply batch_process_slices|].
  destruct (range_length_batches (length data) batch_size Hpos) as [H0 Hn].
  set (count := range_length 0 (Z.of_nat (length data)) batch_size) in *.
  split; [|split].
  - rewrite concat_slices. apply take_ge.
    destruct (length data) as [|n] eqn:Hlen; [lia|].
    destruct Hn as (_ & _ & Hall); [done|]. nia.
  - intros k batch Hk. rewrite list_lookup_fmap in Hk.
    destruct (seq 0 count !! k) as [k'|] eqn:Hseq; [|done].
    apply lookup_seq in Hseq as [-> Hlt]. cbn in Hk. injection Hk as <-.
    split; [done|]. rewrite length_take, length_drop, length_map, length_seq.
    destruct (length data) as [|n] eqn:Hlen; [rewrite H0 in Hlt by done; lia|].
    destruct Hn as (_ & Hlast & _); [done|].
    split; [nia|]. split; [lia|]. intros Hnext. nia.
  - intros Hlen ->. subst count. rewrite Hlen. cbn [range_length].
    change (range_length 0 (Z.of_nat 107) 50) with 3%nat.
    cbn [seq map]. rewrite !length_take, !length_drop, Hlen. reflexivity.
Qed.

(** X11. A batch size that is not positive never batches anything: with
    [batch_size = 0] the generator raises [ValueError], and with a negative
    [batch_size] it yields no batch at all, whatever the data, so the records
    are dropped without an error. *)
Theorem batch_size_not_positive data batch_size :
  batch_size <= 0 ->
  batch_process data batch_size
  = if batch_size =? 0
    then Raised (ValueError "range() arg 3 must not be zero")
    else Returned [].
Proof.
  intros Hle. unfold batch_process, py_range, range_length.
  destruct (batch_size =? 0) eqn:Hzero; [done|].
  assert ((0 <? batch_size) = false) as -> by lia.
  assert ((Z.of_nat (length data) <? 0) = false) as -> by (apply Z.ltb_ge; lia).
  done.
Qed.

(** X12. For a positive [batch_size] the number of batches is the record count
    divided by [batch_size], rounded up, and record [i] of the input is found
    in batch [i / batch_size] at position [i mod batch_size]. *)
Theorem batch_process_indexing data batch_size :
  0 < batch_size ->
  exists batches,
    batch_process data batch_size = Returned batches /\
    Z.of_nat (length batches) = (Z.of_nat (length data) + batch_size - 1) / batch_size /\
    (forall i x, data !! i = Some x ->
       batches !! (i / Z.to_nat batch_size)%nat
         ≫= (fun batch => batch !! (i mod Z.to_nat batch_size)%nat) = Some x).
Proof.
  intros Hpos. eexists. split; [by apply batch_process_slices|].
  destruct (range_length_batches (length data) batch_size Hpos) as [H0 Hn].
  set (count := range_length 0 (Z.of_nat (length data)) batch_size) in *.
  rewrite length_map, length_seq. split.
  - destruct (length data) as [|n] eqn:Hlen.
    + rewrite H0 by done. symmetry. apply Z.div_small. lia.
    + destruct Hn as (Hc & Hlast & Hall); [done|].
      apply (Z.div_unique _ _ _ (Z.of_nat (S n) + batch_size - 1
                                           - batch_size * Z.of_nat count)); nia.
  - intros i x Hi. pose proof (lookup_lt_Some _ _ _ Hi) as Hlt.
    set (size := Z.to_nat batch_size).
    assert (0 < size)%nat as Hsize by (unfold size; lia).
    pose proof (Nat.div_mod_eq i size) as Hdiv.
    pose proof (Nat.mod_upper_bound i size ltac:(lia)) as Hmod.
    assert (i `div` size < count)%nat as Hk.
    { destruct (length data) as [|n] eqn:Hlen; [lia|].
      destruct Hn as (Hc & Hlast & Hall); [done|].
      apply Nat.Div0.div_lt_upper_bound. unfold size. nia. }
    rewrite list_lookup_fmap, lookup_seq_lt by done. cbn.
    rewrite lookup_take_lt by done. rewrite lookup_drop.
    replace (i `div` size * size + i `mod` size)%nat with i by lia. done.
Qed.

End Batching.

(** * Pagination against a paging service *)

Section PagingService.

Variable db : list json.

Lemma py_slice_chunk {A} (l : list A) (a b : nat) :
  (a <= length l)%nat ->
  py_slice l (Z.of_nat a) (Z.of_nat a + Z.of_nat b) = take b (drop a l).
Proof.
  intros Hle. unfold py_slice, slice_index. cbn zeta.
  assert ((Z.of_nat a <? 0) = false) as -> by (apply Z.ltb_ge; lia).
  assert ((Z.of_nat a + Z.of_nat b <? 0) = false) as -> by (apply Z.ltb_ge; lia).
  replace (Z.to_nat (Z.min (Z.of_nat a) (Z.of_nat (length l)))) with a by lia.
  destruct (Nat.le_gt_cases (a + b) (length l)) as [Hin | Hout].
  - f_equal. lia.
  - rewrite !take_ge; [done | rewrite length_drop; lia | rewrite length_drop; lia].
Qed.

Lemma paging_get_page (h : list dict) params per_page (k : nat) w url :
  paging_get db w url
    (Some (paged_params_of h params "page" (Z.of_nat (Z.to_nat per_page))
             (Z.of_nat k + 1)))
  = (Response 200 ""
       (JArr (py_slice db (Z.of_nat (k * Z.to_nat per_page))
                (Z.of_nat (k * Z.to_nat per_page) + Z.of_nat (Z.to_nat per_page)))),
     tt).
Proof.
  unfold paging_get, paged_params_of. cbn [mbind option_bind].
  rewrite lookup_insert_ne by done. rewrite !lookup_insert_eq.
  do 3 f_equal. f_equal; lia.
Qed.

(** After [k] full pages the loop holds the first [k * per_page] records and
    asks for page [k + 1]; with enough fuel for the pages that remain it
    returns all of [db]. *)
Lemma fetch_paginated_loop_paging self endpoint params (size : nat) :
  0 < max_retries self -> (0 < size)%nat ->
  forall fuel (k : nat) st,
    (k * size <= length db)%nat ->
    (length db - k * size < fuel * size)%nat ->
    fst (fetch_paginated_loop (paging_get db) fuel self endpoint params "page"
           (Z.of_nat size) None (take (k * size) db) (Z.of_nat k + 1) st)
    = Returned db.
Proof.
  intros Hretries Hsize.
  induction fuel as [|fuel IH]; intros k st Hk Hfuel; [lia|].
  rewrite fetch_paginated_loop_unfold.
  pose proof (paging_get_page (heap st) params (Z.of_nat size) k (world st)
                (base_url self +:+ endpoint)) as Hget.
  rewrite Nat2Z.id in Hget. rewrite py_slice_chunk in Hget by done.
  erewrite make_request_first_success; [|done|];
    [|cbn [page_request_state heap world]; rewrite snapshot_fresh; exact Hget].
  cbn zeta. cbn [unwrap_envelope py_iter page_limit_reached].
  set (chunk := take size (drop (k * size) db)).
  assert (length chunk = Nat.min size (length db - k * size)) as Hchunk
    by (unfold chunk; by rewrite length_take, length_drop).
  assert (take (k * size) db ++ chunk = take (k * size + size) db) as Happ
    by apply take_take_drop.
  destruct (negb (truthy (JArr chunk))) eqn:Hempty.
  - apply negb_true_iff, truthy_array_false in Hempty. cbn [fst].
    f_equal. apply take_ge. rewrite Hempty in Hchunk. cbn in Hchunk. lia.
  - destruct (Z.of_nat (length chunk) <? Z.of_nat size) eqn:Hshort.
    + cbn [fst]. rewrite Happ. f_equal. apply take_ge. lia.
    + rewrite Happ.
      replace (Z.of_nat k + 1 + 1) with (Z.of_nat (S k) + 1) by lia.
      replace (k * size + size)%nat with (S k * size)%nat by lia.
      apply IH; [lia|]. nia.
Qed.

(** X1. Against the paging service, with a positive page size and no page limit,
    [fetch_paginated] returns the whole data set, in order, for every fuel
    above the number of records. *)
Theorem fetch_paginated_paging_service self endpoint params per_page fuel st :
  0 < max_retries self ->
  0 < per_page ->
  (length db < fuel)%nat ->
  fst (fetch_paginated (paging_get db) fuel self endpoint params "page" per_page None st)
  = Returned db.
Proof.
  intros Hretries Hsize Hfuel. unfold fetch_paginated.
  pose proof (fetch_paginated_loop_paging self endpoint params (Z.to_nat per_page)
                Hretries ltac:(lia) fuel O st) as H.
  rewrite Z2Nat.id in H by lia. cbn [Nat.mul take Z.of_nat Z.add] in H.
  apply H; [lia|]. nia.
Qed.

End PagingService.

(** * A page limit of zero *)

(** C10. [max_pages = 0] does not bound the fetch to zero pages. The limit
    test of line 102 is false at every page, as it is for [max_pages = None],
    and against every service [fetch_paginated] runs exactly as with
    [max_pages = None]: the same result, requests and final state. A page that
    is neither empty nor short is followed by the request for the next page.
    Whenever the call returns it has fetched at least one page: some pages
    with items and at least [per_page] elements each, then one last page that
    is empty or short. Against the paging service, which never fails, the call
    returns the whole data set, whatever its size. *)
Theorem max_pages_zero_is_unbounded :
  (forall page, page_limit_reached (Some 0) page = page_limit_reached None page) /\
  (forall (W : Type) (http_get : W -> string -> option dict -> http_result * W)
          fuel self endpoint params page_param per_page st,
     fetch_paginated http_get fuel self endpoint params page_param per_page (Some 0) st
     = fetch_paginated http_get fuel self endpoint params page_param per_page None st) /\
  (forall (W : Type) (http_get : W -> string -> option dict -> http_result * W)
          fuel self endpoint params page_param per_page results page st0 data st1
          elements,
     _make_request http_get self (base_url self +:+ endpoint) (Some (length (heap st0)))
       (page_request_state st0 endpoint params page_param per_page page)
     = (Returned data, st1) ->
     truthy (unwrap_envelope data) = true ->
     py_iter (unwrap_envelope data) = Some elements ->
     per_page <= Z.of_nat (length elements) ->
     fetch_paginated_loop http_get (S fuel) self endpoint params page_param per_page
       (Some 0) results page st0
     = fetch_paginated_loop http_get fuel self endpoint params page_param per_page
         (Some 0) (results ++ elements) (page + 1) st1) /\
  (forall (W : Type) (http_get : W -> string -> option dict -> http_result * W)
          fuel self endpoint params page_param per_page st res st',
     fetch_paginated http_get fuel self endpoint params page_param per_page (Some 0) st
     = (Returned res, st') ->
     exists evs full last,
       trace st' = trace st ++ evs /\
       pages evs = full ++ [last] /\
       (forall i data, full !! i = Some data ->
          truthy (unwrap_envelope data) = true /\
          per_page <= Z.of_nat (length (page_elements data))) /\
       (truthy (unwrap_envelope last) = false
        \/ Z.of_nat (length (page_elements last)) < per_page)) /\
  (forall db self endpoint params per_page fuel st,
     0 < max_retries self ->
     0 < per_page ->
     (length db < fuel)%nat ->
     fst (fetch_paginated (paging_get db) fuel self endpoint params "page" per_page
            (Some 0) st)
     = Returned db).
Proof.
  assert (forall page, page_limit_reached (Some 0) page = page_limit_reached None page)
    as Hlimit by done.
  split; [exact Hlimit|]. split; [|split; [|split]].
  - intros W http_get fuel self endpoint params page_param per_page st.
    unfold fetch_paginated. by apply fetch_paginated_loop_limit_ext.
  - intros W http_get fuel self endpoint params page_param per_page results page st0
      data st1 elements Hreq Htruthy Hiter Hfull.
    rewrite fetch_paginated_loop_unfold, Hreq. cbn zeta.
    rewrite Htruthy, Hiter. cbn [negb page_limit_reached Z.eqb andb].
    assert ((Z.of_nat (length elements) <? per_page) = false) as -> by lia. done.
  - intros W http_get fuel self endpoint params page_param per_page st res st' Hrun.
    destruct (fetch_paginated_loop_stop http_get self endpoint params page_param
                per_page (Some 0) fuel [] 1 st res st' Hrun)
      as (evs & full & last & Htrace & Hpages & Hfull & Hlast).
    exists evs, full, last. split; [done|]. split; [done|]. split.
    + intros i data Hi. destruct (Hfull i data Hi) as (H1 & H2 & _). done.
    + destruct Hlast as [H | [H | H]]; [by left | done | by right].
  - intros db self endpoint params per_page fuel st Hretries Hsize Hfuel.
    unfold fetch_paginated.
    rewrite (fetch_paginated_loop_limit_ext (paging_get db) fuel self endpoint params
               "page" per_page (Some 0) None Hlimit).
    pose proof (fetch_paginated_loop_paging db self endpoint params (Z.to_nat per_page)
                  Hretries ltac:(lia) fuel O st) as H.
    rewrite Z2Nat.id in H by lia. cbn [Nat.mul take Z.of_nat Z.add] in H.
    apply H; [lia|]. nia.
Qed.

(** * The demonstration script *)

Section ScriptProperties.

Context {W : Type}.
Variable http_get : W -> string -> option dict -> http_result * W.

Lemma process_batch_finishes batch :
  snd (process_batch batch) = None <-> readable batch.
Proof.
  unfold process_batch, readable. cbn zeta.
  destruct (batch !! 1%nat) as [record|]; cbn.
  - destruct (street_name record) as [e|name] eqn:Hname; cbn; split; try done.
    + intros (r & n & [= <-] & Hn). congruence.
    + intros _. by exists record, name.
  - split; [done|]. by intros (r & n & ? & _).
Qed.

Lemma process_batches_finish batches :
  snd (process_batches batches) = None <-> Forall readable batches.
Proof.
  induction batches as [|batch rest IH]; cbn [process_batches].
  - split; [by constructor|done].
  - rewrite Forall_cons, <- IH, <- process_batch_finishes.
    destruct (process_batch batch) as [logged [e|]]; cbn.
    + split; [done|by intros [? _]].
    + destruct (process_batches rest) as [logged' e']. cbn. split; [done|by intros [_ ?]].
Qed.

(** When every record has a street name, the only exception of the loop is
    the [IndexError] of a batch without a second record. *)
Lemma process_batches_index_error batches :
  Forall (Forall (fun record => exists name, street_name record = inr name)) batches ->
  snd (process_batches batches) = None
  \/ snd (process_batches batches) = Some (IndexError "list index out of range").
Proof.
  induction 1 as [|batch rest Hbatch Hrest IH]; cbn [process_batches]; [by left|].
  unfold process_batch. cbn zeta.
  destruct (batch !! 1%nat) as [record|] eqn:Hrecord; [|by right].
  rewrite Forall_lookup in Hbatch. destruct (Hbatch _ _ Hrecord) as [name ->].
  destruct (process_batches rest) as [logged' e']. done.
Qed.

Lemma script_batches (all_crimes : list json) :
  exists count,
    batch_process all_crimes 100
    = Returned (map (fun k => take 100 (drop (k * 100) all_crimes)) (seq 0 count)) /\
    (forall k, (k < count)%nat <-> (100 * k < length all_crimes)%nat).
Proof.
  exists (range_length 0 (Z.of_nat (length all_crimes)) 100).
  split; [by apply (batch_process_slices all_crimes 100)|].
  destruct (range_length_batches (length all_crimes) 100 ltac:(lia)) as [H0 Hn].
  intros k. destruct (length all_crimes) as [|n] eqn:Hlen.
  - rewrite H0 by done. lia.
  - destruct Hn as (Hc & Hlast & Hall); [done|]. lia.
Qed.

Lemma main_after_fetch fuel st all_crimes st' :
  fetch_paginated http_get fuel (new_ingestor "https://data.police.uk/api/")
    "/api/crimes-street/all-crime" (Some (length (heap st))) "page" 200 (Some 20)
    {| world := world st; heap := heap st ++ [crime_query]; trace := trace st |}
  = (Returned all_crimes, st') ->
  exists count,
    (forall k, (k < count)%nat <-> (100 * k < length all_crimes)%nat) /\
    fst (fst (main http_get fuel st))
    = match snd (process_batches
                   (map (fun k => take 100 (drop (k * 100) all_crimes)) (seq 0 count))) with
      | Some e => Failed e
      | None => Finished
      end.
Proof.
  intros Hfetch. destruct (script_batches all_crimes) as (count & Hbatches & Hcount).
  exists count. split; [done|].
  unfold main, bind, alloc. cbn zeta. rewrite Hfetch, Hbatches.
  by destruct (process_batches _) as [logged [e|]].
Qed.

Lemma main_finished_iff fuel st all_crimes st' :
  fetch_paginated http_get fuel (new_ingestor "https://data.police.uk/api/")
    "/api/crimes-street/all-crime" (Some (length (heap st))) "page" 200 (Some 20)
    {| world := world st; heap := heap st ++ [crime_query]; trace := trace st |}
  = (Returned all_crimes, st') ->
  fst (fst (main http_get fuel st)) = Finished
  <-> forall k, (100 * k < length all_crimes)%nat ->
        exists record name,
          all_crimes !! (100 * k + 1)%nat = Some record /\
          street_name record = inr name.
Proof.
  intros Hfetch.
  destruct (main_after_fetch fuel st all_crimes st' Hfetch) as (count & Hcount & ->).
  transitivity (snd (process_batches
                       (map (fun k => take 100 (drop (k * 100) all_crimes))
                          (seq 0 count))) = None).
  { destruct (process_batches _) as [logged [e|]]; cbn; split; done. }
  rewrite process_batches_finish, Forall_fmap, Forall_seq. unfold compose, readable.
  split.
  - intros H k Hk. destruct (H k) as (record & name & Hrecord & Hname).
    { apply Hcount in Hk. lia. }
    rewrite lookup_take_lt, lookup_drop in Hrecord by lia.
    exists record, name. split; [|done]. rewrite <- Hrecord. f_equal. lia.
  - intros H k Hk. destruct (H k) as (record & name & Hrecord & Hname).
    { apply Hcount. lia. }
    exists record, name. split; [|done].
    rewrite lookup_take_lt, lookup_drop by lia. rewrite <- Hrecord. f_equal. lia.
Qed.

(** X14. When the fetch succeeds, the script runs to the end exactly when,
    for every batch of 100, the second record of the batch (record [100 k + 1]
    of the data) exists and has a [location.street.name]; otherwise an
    exception escapes from the loop. *)
Theorem script_finishes_iff fuel st all_crimes st' :
  fetch_paginated http_get fuel (new_ingestor "https://data.police.uk/api/")
    "/api/crimes-street/all-crime" (Some (length (heap st))) "page" 200 (Some 20)
    {| world := world st; heap := heap st ++ [crime_query]; trace := trace st |}
  = (Returned all_crimes, st') ->
  (fst (fst (main http_get fuel st)) = Finished
   <-> forall k, (100 * k < length all_crimes)%nat ->
         exists record name,
           all_crimes !! (100 * k + 1)%nat = Some record /\
           street_name record = inr name) /\
  (fst (fst (main http_get fuel st)) <> Finished ->
   exists e, fst (fst (main http_get fuel st)) = Failed e).
Proof.
  intros Hfetch. split; [by eapply main_finished_iff|].
  destruct (main_after_fetch fuel st all_crimes st' Hfetch) as (count & Hcount & ->).
  destruct (process_batches _) as [logged [e|]]; cbn; [by exists e|done].
Qed.

(** X15. When the fetch succeeds and every record has a street name, the
    script fails exactly when the number of records leaves remainder 1 modulo
    100: the last batch then holds a single record and [batch[1]] raises
    [IndexError]. For every other count it runs to the end. *)
Theorem script_index_error fuel st all_crimes st' :
  fetch_paginated http_get fuel (new_ingestor "https://data.police.uk/api/")
    "/api/crimes-street/all-crime" (Some (length (heap st))) "page" 200 (Some 20)
    {| world := world st; heap := heap st ++ [crime_query]; trace := trace st |}
  = (Returned all_crimes, st') ->
  Forall (fun record => exists name, street_name record = inr name) all_crimes ->
  fst (fst (main http_get fuel st))
  = if (length all_crimes mod 100 =? 1)%nat
    then Failed (IndexError "list index out of range")
    else Finished.
Proof.
  intros Hfetch Hnames.
  pose proof (main_finished_iff fuel st all_crimes st' Hfetch) as Hiff.
  destruct (main_after_fetch fuel st all_crimes st' Hfetch) as (count & Hcount & Hmain).
  assert (snd (process_batches
                 (map (fun k => take 100 (drop (k * 100) all_crimes)) (seq 0 count)))
          = None
          \/ snd (process_batches
                    (map (fun k => take 100 (drop (k * 100) all_crimes)) (seq 0 count)))
             = Some (IndexError "list index out of range")) as Hkind.
  { apply process_batches_index_error. apply Forall_fmap, Forall_seq.
    intros k _. unfold compose. by apply Forall_take, Forall_drop. }
  pose proof (Nat.div_mod_eq (length all_crimes) 100) as Hdiv.
  pose proof (Nat.mod_upper_bound (length all_crimes) 100 ltac:(lia)) as Hmod.
  destruct (length all_crimes mod 100 =? 1)%nat eqn:Hone.
  - apply Nat.eqb_eq in Hone.
    destruct Hkind as [Hnone | Herr]; [|by rewrite Hmain, Herr].
    rewrite Hnone in Hmain. pose proof (proj1 Hiff Hmain) as Hevery.
    destruct (Hevery (length all_crimes `div` 100)%nat ltac:(lia))
      as (record & name & Hrecord & _).
    apply lookup_lt_Some in Hrecord. lia.
  - apply Nat.eqb_neq in Hone. apply Hiff. intros k Hk.
    assert (100 * k + 1 < length all_crimes)%nat as Hin.
    { destruct (decide (k < length all_crimes `div` 100)%nat); [lia|].
      assert (k = length all_crimes `div` 100)%nat by nia. lia. }
    destruct (lookup_lt_is_Some_2 all_crimes _ Hin) as [record Hrecord].
    rewrite Forall_lookup in Hnames. destruct (Hnames _ _ Hrecord) as [name Hname].
    by exists record, name.
Qed.

(** X16. With a step budget of at least 20 the script never stops for lack of
    fuel, and in any case it sends at most 100 GET requests (20 pages, 5
    attempts each). *)
Theorem script_budget fuel st :
  (20 <= fuel)%nat ->
  fst (fst (main http_get fuel st)) <> Unfinished /\
  exists evs,
    trace (snd (main http_get fuel st)) = trace st ++ evs /\
    (length (gets evs) <= 100)%nat.
Proof.
  intros Hfuel. unfold main, bind, alloc. cbn zeta.
  destruct (fetch_paginated_loop_bounded http_get 20
              (new_ingestor "https://data.police.uk/api/")
              "/api/crimes-street/all-crime" (Some (length (heap st))) "page" 200
              ltac:(lia) fuel [] 1
              {| world := world st; heap := heap st ++ [crime_query];
                 trace := trace st |} ltac:(cbn; lia)) as (Hend & _).
  destruct (fetch_paginated_loop_request_count http_get 20
              (new_ingestor "https://data.police.uk/api/")
              "/api/crimes-street/all-crime" (Some (length (heap st))) "page" 200
              ltac:(lia) fuel [] 1
              {| world := world st; heap := heap st ++ [crime_query];
                 trace := trace st |}) as (evs & attempts & Htrace & Hsent & Hall & Hlen).
  assert (length (gets evs) <= 100)%nat as Hgets.
  { rewrite length_gets_sent_params, Hsent. cbn in Hall, Hlen.
    assert (sum_list attempts <= length attempts * 5)%nat as Hsum.
    { clear -Hall. induction Hall as [|c rest Hc Hrest IH]; cbn in *; lia. }
    lia. }
  cbn [trace] in Htrace. unfold fetch_paginated in *.
  destruct (fetch_paginated_loop _ _ _ _ _ _ _ _ _ _ _) as [[all_crimes|e|] st1];
    cbn [fst snd] in *; [|split; [done|by exists evs]|done].
  destruct (script_batches all_crimes) as (count & -> & _).
  destruct (process_batches _) as [logged [e|]]; (split; [done|by exists evs]).
Qed.

End ScriptProperties.

(** * Runs on concrete inputs *)

Lemma make_request_exhausted_witness :
  exists st' evs,
    _make_request script_get police_api "https://data.police.uk/api/crimes" (Some O)
      (caller_state failing_script)
    = (Raised (Exception ("Failed to fetch data from "
                          +:+ "https://data.police.uk/api/crimes" +:+ " after "
                          +:+ pretty (max_retries police_api) +:+ " retries")), st') /\
    trace st' = trace (caller_state failing_script) ++ evs /\
    Z.of_nat (length (gets evs)) = max_retries police_api /\
    all_failed (responses evs) = true.
Proof.
  destruct (make_request_exhausted script_get police_api
              "https://data.police.uk/api/crimes" (Some O) (caller_state failing_script))
    as (st' & evs & Hrun & Htrace & Hgets & Hfailed & _).
  - vm_compute. reflexivity.
  - vm_compute. discriminate.
  - vm_compute. reflexivity.
  - exists st', evs. by repeat split.
Defined.

Example exhausted_message :
  fst (_make_request script_get police_api "https://data.police.uk/api/crimes" (Some O)
         (caller_state failing_script))
  = Raised (Exception
      "Failed to fetch data from https://data.police.uk/api/crimes after 3 retries").
Proof. vm_compute. reflexivity. Qed.

Example backoff_delays :
  sleeps (trace (snd (_make_request script_get police_api
                        "https://data.police.uk/api/crimes" (Some O)
                        (caller_state failing_script))))
  = [Qmake 1 2; Qmake 2 2; Qmake 4 2].
Proof. vm_compute. reflexivity. Qed.

Lemma run_summary_eq {W} (run : result json * state W) result rs delays final :
  run_summary run = (result, rs, delays, final) ->
  fst run = result /\ responses (trace (snd run)) = rs
  /\ sleeps (trace (snd run)) = delays /\ last (trace (snd run)) = final.
Proof. unfold run_summary. intros H. by injection H. Qed.

(** The run with 1025 retries and the factor [2 ** -1000] against a service
    that refuses every connection. *)
Lemma stubborn_run :
  run_summary (_make_request script_get stubborn_api crimes_url None refused)
  = (Raised (OverflowError "int too large to convert to float"),
     replicate 1025 (RequestException "connection refused"),
     map (fun k => Qmult (backoff_factor stubborn_api) (inject_Z (2 ^ (Z.of_nat k - 1))))
       (seq 1 1024),
     Some (EvLog WARNING (LogRequestException "connection refused"))).
Proof. vm_compute. reflexivity. Qed.

(** C1 as stated fails outside the range of the backoff schedule, against a
    service that fails every attempt. With forty retries and the default
    factor 0.5, the delay after the 36th failure is [0.5 * 2 ** 35] seconds,
    which [time.sleep] rejects: the call raises [OverflowError] after 36
    requests, not the exhaustion exception after 40. With 1025 retries and
    the factor [2 ** -1000], all 1025 attempts are made and fail, and the call
    raises [OverflowError] from the product of line 58, not the exhaustion
    exception. *)
Lemma make_request_exhausted_counterexample :
  (all_failed (fst (replay script_get (Z.to_nat (max_retries patient_api))
                      (world refused) crimes_url None))
   = true /\
   fst (_make_request script_get patient_api crimes_url None refused)
   = Raised (OverflowError "timestamp too large to convert to C _PyTime_t") /\
   fst (_make_request script_get patient_api crimes_url None refused)
   <> Raised (exhausted patient_api crimes_url) /\
   length (responses (trace (snd (_make_request script_get patient_api crimes_url None
                                    refused))))
   = 36%nat)
  /\
  (all_failed (fst (replay script_get (Z.to_nat (max_retries stubborn_api))
                      (world refused) crimes_url None))
   = true /\
   fst (_make_request script_get stubborn_api crimes_url None refused)
   = Raised (OverflowError "int too large to convert to float") /\
   fst (_make_request script_get stubborn_api crimes_url None refused)
   <> Raised (exhausted stubborn_api crimes_url) /\
   length (responses (trace (snd (_make_request script_get stubborn_api crimes_url
                                    None refused))))
   = Z.to_nat (max_retries stubborn_api)).
Proof.
  split.
  - split; [vm_compute; reflexivity|]. split; [vm_compute; reflexivity|].
    split; [vm_compute; discriminate|]. vm_compute. reflexivity.
  - destruct (run_summary_eq _ _ _ _ _ stubborn_run) as (Hresult & Hresponses & _ & _).
    split; [vm_compute; reflexivity|]. split; [exact Hresult|].
    split; [rewrite Hresult; discriminate|].
    rewrite Hresponses. vm_compute. reflexivity.
Qed.

(** Within the range: three failures with the factor 0.5. *)
Lemma backoff_schedule_witness :
  exists rs w final,
    replay script_get (length rs) (world (caller_state failing_script)) crimes_url
      (Some {["date" := JStr "2025-07"]})
    = (rs, w) /\
    all_failed rs = true /\
    trace (snd (_make_request script_get police_api crimes_url (Some O)
                  (caller_state failing_script)))
    = trace (caller_state failing_script)
      ++ failed_attempts police_api crimes_url (Some {["date" := JStr "2025-07"]}) 0 rs
      ++ final /\
    sleeps (failed_attempts police_api crimes_url (Some {["date" := JStr "2025-07"]}) 0
              rs ++ final)
    = map (fun k => Qmult (backoff_factor police_api) (inject_Z (2 ^ (Z.of_nat k - 1))))
          (seq 1 (length rs)) /\
    ((exists t body w',
        script_get w crimes_url (Some {["date" := JStr "2025-07"]})
        = (Response 200 t body, w') /\
        final = [EvGet crimes_url (Some {["date" := JStr "2025-07"]}) 10
                   (Response 200 t body)] /\
        fst (_make_request script_get police_api crimes_url (Some O)
               (caller_state failing_script))
        = Returned body /\
        (length rs < Z.to_nat (max_retries police_api))%nat)
     \/
     (exists t msg w',
        script_get w crimes_url (Some {["date" := JStr "2025-07"]})
        = (Undecodable 200 t (PlainJSONDecodeError msg), w') /\
        final = [EvGet crimes_url (Some {["date" := JStr "2025-07"]}) 10
                   (Undecodable 200 t (PlainJSONDecodeError msg))] /\
        fst (_make_request script_get police_api crimes_url (Some O)
               (caller_state failing_script))
        = Raised (ValueError msg) /\
        (length rs < Z.to_nat (max_retries police_api))%nat)
     \/
     (final = [] /\
      fst (_make_request script_get police_api crimes_url (Some O)
             (caller_state failing_script))
      = Raised (exhausted police_api crimes_url) /\
      length rs = Z.to_nat (max_retries police_api) /\
      (0 < max_retries police_api ->
       last (trace (snd (_make_request script_get police_api crimes_url (Some O)
                           (caller_state failing_script))))
       = Some (EvSleep (Qmult (backoff_factor police_api)
                          (inject_Z (2 ^ (max_retries police_api - 1)))))))).
Proof.
  apply (backoff_schedule script_get police_api crimes_url (Some O)
           (caller_state failing_script)).
  vm_compute. reflexivity.
Defined.

(** C5 as stated fails outside the range of the backoff schedule, against a
    service that fails every attempt. With forty retries and the default
    factor 0.5, the 36 failed attempts are followed by only 35 sleeps: after
    the 36th failure the retry notice is logged, [time.sleep] raises
    [OverflowError] for the delay [0.5 * 2 ** 35], and no sleep of that
    length happens, nor is exhaustion raised. With 1025 retries and the
    factor [2 ** -1000], the 1025 failed attempts are followed by only 1024
    sleeps: after the final failed attempt the product of line 58 raises
    [OverflowError], so the last event is that attempt's warning, and neither a
    sleep nor exhaustion follows. *)
Lemma backoff_schedule_counterexample :
  (length (responses (trace (snd (_make_request script_get patient_api crimes_url None
                                    refused))))
   = 36%nat /\
   all_failed (responses (trace (snd (_make_request script_get patient_api crimes_url
                                        None refused))))
   = true /\
   sleeps (trace (snd (_make_request script_get patient_api crimes_url None refused)))
   = map (fun k => Qmult (backoff_factor patient_api) (inject_Z (2 ^ (Z.of_nat k - 1))))
         (seq 1 35) /\
   last (trace (snd (_make_request script_get patient_api crimes_url None refused)))
   = Some (EvLog INFO (LogRetrying (Finite (Qmult (backoff_factor patient_api)
                                              (inject_Z (2 ^ 35)))))) /\
   fst (_make_request script_get patient_api crimes_url None refused)
   = Raised (OverflowError "timestamp too large to convert to C _PyTime_t"))
  /\
  (length (responses (trace (snd (_make_request script_get stubborn_api crimes_url None
                                    refused))))
   = Z.to_nat (max_retries stubborn_api) /\
   all_failed (responses (trace (snd (_make_request script_get stubborn_api crimes_url
                                        None refused))))
   = true /\
   sleeps (trace (snd (_make_request script_get stubborn_api crimes_url None refused)))
   = map (fun k => Qmult (backoff_factor stubborn_api)
                     (inject_Z (2 ^ (Z.of_nat k - 1))))
         (seq 1 1024) /\
   last (trace (snd (_make_request script_get stubborn_api crimes_url None refused)))
   = Some (EvLog WARNING (LogRequestException "connection refused")) /\
   fst (_make_request script_get stubborn_api crimes_url None refused)
   = Raised (OverflowError "int too large to convert to float")).
Proof.
  split.
  - split; [vm_compute; reflexivity|]. split; [vm_compute; reflexivity|].
    split; [vm_compute; reflexivity|]. split; [vm_compute; reflexivity|].
    vm_compute. reflexivity.
  - destruct (run_summary_eq _ _ _ _ _ stubborn_run)
      as (Hresult & Hresponses & Hsleeps & Hlast).
    rewrite Hresponses. split; [vm_compute; reflexivity|].
    split; [vm_compute; reflexivity|]. split; [exact Hsleeps|].
    split; [exact Hlast | exact Hresult].
Qed.

(** A failed attempt, then status 200 with a body that parses. *)
Lemma success_iff_status_200_witness :
  _make_request script_get police_api crimes_url None busy_then_ok
  = (Returned (JArr [JInt 1]),
     advance busy_then_ok []
       (failed_attempts police_api crimes_url None 0 [Response 503 "busy" JNull]
        ++ [EvGet crimes_url None 10 (Response 200 "[1]" (JArr [JInt 1]))])).
Proof.
  destruct (success_iff_status_200 script_get police_api crimes_url None)
    as (_ & _ & _ & _ & Hrun).
  - vm_compute. reflexivity.
  - apply (Hrun busy_then_ok 1%nat [Response 503 "busy" JNull]
             [Response 200 "[1]" (JArr [JInt 1])] "[1]" (JArr [JInt 1]) []).
    + vm_compute. lia.
    + reflexivity.
    + reflexivity.
    + reflexivity.
Defined.

(** C6 as stated fails on an answer with status code 200 whose body is not
    JSON. When [response.json()] raises the decode error that is a
    [RequestException], the attempt is logged as a failure and retried: the
    first answer has status code 200, yet the call goes on to sleep and to
    send a second request, and returns what that one brings. When the decode
    error is not a [RequestException], it leaves the loop: the status code is
    200 and nothing is returned. *)
Lemma success_iff_status_200_counterexample :
  (status_of (html_page (RequestsJSONDecodeError "Expecting value")) = Some 200 /\
   _make_request script_get police_api crimes_url None
     (html_then_ok (RequestsJSONDecodeError "Expecting value"))
   = (Returned (JArr [JInt 1]),
      {| world := []; heap := [];
         trace := [EvGet crimes_url None 10
                     (html_page (RequestsJSONDecodeError "Expecting value"));
                   EvLog WARNING (LogRequestException "Expecting value");
                   EvLog INFO (LogRetrying (Finite (Qmake 1 2)));
                   EvSleep (Qmake 1 2);
                   EvGet crimes_url None 10 (Response 200 "[1]" (JArr [JInt 1]))] |}))
  /\
  (status_of (html_page (PlainJSONDecodeError "Expecting value")) = Some 200 /\
   _make_request script_get police_api crimes_url None
     (html_then_ok (PlainJSONDecodeError "Expecting value"))
   = (Raised (ValueError "Expecting value"),
      {| world := [Response 200 "[1]" (JArr [JInt 1])]; heap := [];
         trace := [EvGet crimes_url None 10
                     (html_page (PlainJSONDecodeError "Expecting value"))] |})).
Proof.
  split; (split; [reflexivity|]); vm_compute; reflexivity.
Qed.

(** An empty first page: an empty result after one request. *)
Lemma pagination_termination_order_witness :
  fetch_paginated_loop script_get 1 police_api "crimes" (Some O) "page" 3 None [] 1
    (caller_state [Response 200 "[]" (JArr [])])
  = (Returned [],
     snd (_make_request script_get police_api (base_url police_api +:+ "crimes")
            (Some (length (heap (caller_state [Response 200 "[]" (JArr [])]))))
            (page_request_state (caller_state [Response 200 "[]" (JArr [])])
               "crimes" (Some O) "page" 3 1))).
Proof.
  apply (proj1 (pagination_termination_order script_get O police_api "crimes" (Some O)
                  "page" 3 None [] 1 (caller_state [Response 200 "[]" (JArr [])])
                  (JArr []) _ ltac:(vm_compute; reflexivity))).
  reflexivity.
Defined.

Example empty_first_page_one_request :
  let run := fetch_paginated script_get 5 police_api "crimes" (Some O) "page" 3 None
               (caller_state [Response 200 "[]" (JArr [])]) in
  fst run = Returned [] /\ length (gets (trace (snd run))) = 1%nat.
Proof. vm_compute. done. Qed.

(** Pages of 3, 3 and 2 records with [per_page = 3]: eight records, and no
    request after the short page. *)
Lemma fetch_paginated_concatenates_witness :
  exists evs,
    trace (snd (fetch_paginated script_get 3 police_api "crimes" (Some O) "page" 3 None
                  (caller_state three_pages_script)))
    = trace (caller_state three_pages_script) ++ evs /\
    [crime 1; crime 2; crime 3; crime 4; crime 5; crime 6; crime 7; crime 8]
    = concat (map page_elements (pages evs)) /\
    (forall data, head (pages evs) = Some data ->
       truthy (unwrap_envelope data) = false ->
       [crime 1; crime 2; crime 3; crime 4; crime 5; crime 6; crime 7; crime 8] = []
       /\ pages evs = [data]) /\
    (forall fuel', (3 <= fuel')%nat ->
       fetch_paginated script_get fuel' police_api "crimes" (Some O) "page" 3 None
         (caller_state three_pages_script)
       = (Returned [crime 1; crime 2; crime 3; crime 4; crime 5; crime 6; crime 7;
                    crime 8],
          snd (fetch_paginated script_get 3 police_api "crimes" (Some O) "page" 3 None
                 (caller_state three_pages_script)))).
Proof.
  apply (fetch_paginated_concatenates script_get 3 police_api "crimes" (Some O) "page"
           3 None (caller_state three_pages_script)).
  vm_compute. reflexivity.
Defined.

Example short_page_stops :
  length (gets (trace (snd (fetch_paginated script_get 9 police_api "crimes" (Some O)
                              "page" 3 None (caller_state three_pages_script)))))
  = 4%nat.
Proof. vm_compute. reflexivity. Qed.

(** With [max_pages = 2] and pages that are always full, two requests. *)
Example max_pages_stops :
  let run := fetch_paginated endless_get 9 police_api "crimes" None "page" 2 (Some 2)
               {| world := tt; heap := []; trace := [] |} in
  fst run = Returned [crime 1; crime 2; crime 1; crime 2]
  /\ length (gets (trace (snd run))) = 2%nat.
Proof. vm_compute. done. Qed.

(** With [max_pages = 0] the same service is polled until the fuel runs out. *)
Example max_pages_zero_runs_on :
  let run := fetch_paginated endless_get 9 police_api "crimes" None "page" 2 (Some 0)
               {| world := tt; heap := []; trace := [] |} in
  fst run = OutOfFuel /\ length (gets (trace (snd run))) = 9%nat.
Proof. vm_compute. done. Qed.

(** The envelope [{"count": 2, "results": [a, b]}] yields [[a, b]] from both
    methods. *)
Lemma envelope_unwrapping_witness :
  unwrap_envelope (JObj [("count", JInt 2); ("results", JArr [crime 1; crime 2])])
  = JArr [crime 1; crime 2] /\
  page_elements (JObj [("count", JInt 2); ("results", JArr [crime 1; crime 2])])
  = [crime 1; crime 2] /\
  fst (fetch_incremental script_get police_api "crimes" (Some "2024-01-01") (Some O)
         (caller_state
            [Response 200 "" (JObj [("count", JInt 2);
                                    ("results", JArr [crime 1; crime 2])])]))
  = Returned (JArr [crime 1; crime 2]) /\
  (Z.of_nat (length [crime 1; crime 2]) < 100 ->
   fst (fetch_paginated script_get 1 police_api "crimes" (Some O) "page" 100 None
          (caller_state
             [Response 200 "" (JObj [("count", JInt 2);
                                     ("results", JArr [crime 1; crime 2])])]))
   = Returned [crime 1; crime 2]).
Proof.
  apply (envelope_unwrapping script_get O police_api "crimes" (Some "2024-01-01")
           (Some O) "page" 100 None
           (caller_state
              [Response 200 "" (JObj [("count", JInt 2);
                                      ("results", JArr [crime 1; crime 2])])])
           "" (JObj [("count", JInt 2); ("results", JArr [crime 1; crime 2])])
           [crime 1; crime 2]).
  - reflexivity.
  - intros p. reflexivity.
  - right. eexists. split; reflexivity.
Defined.

Example bare_array_unchanged :
  fst (fetch_incremental script_get police_api "crimes" None None
         (caller_state [Response 200 "" (JArr [crime 1; crime 2])]))
  = Returned (JArr [crime 1; crime 2]).
Proof. vm_compute. reflexivity. Qed.

(** Two paginated fetches and an incremental one with the caller's dictionary:
    it still holds its one key. *)
Example params_unchanged_after_calls :
  heap (run_calls script_get police_api
          [CallPaginated 5 "crimes" (Some O) "page" 3 None;
           CallPaginated 5 "crimes" (Some O) "page" 3 (Some 1);
           CallIncremental "crimes" (Some "2024-01-01") (Some O)]
          (caller_state three_pages_script)) !! O
  = Some {["date" := JStr "2025-07"]}.
Proof. vm_compute. reflexivity. Qed.

(** 107 records in batches of 50. *)
Lemma batch_process_partitions_witness :
  exists batches,
    batch_process (map Z.of_nat (seq 0 107)) 50 = Returned batches /\
    concat batches = map Z.of_nat (seq 0 107) /\
    (forall k batch, batches !! k = Some batch ->
       batch = take (Z.to_nat 50) (drop (k * Z.to_nat 50) (map Z.of_nat (seq 0 107))) /\
       (0 < length batch)%nat /\
       Z.of_nat (length batch) <= 50 /\
       ((S k < length batches)%nat -> Z.of_nat (length batch) = 50)) /\
    (length (map Z.of_nat (seq 0 107)) = 107%nat -> 50 = 50 ->
     map length batches = [50; 50; 7]%nat).
Proof.
  apply (batch_process_partitions (map Z.of_nat (seq 0 107)) 50). reflexivity.
Defined.

Example batch_lengths :
  (fun r => match r with Returned batches => map length batches | _ => [] end)
    (batch_process (map Z.of_nat (seq 0 107)) 50)
  = [50; 50; 7]%nat.
Proof. vm_compute. reflexivity. Qed.

Example batch_size_zero_rejected :
  batch_process [crime 1; crime 2] 0
  = Raised (ValueError "range() arg 3 must not be zero").
Proof. reflexivity. Qed.

(** The cursor is sent when it is a non-empty string. *)
Example since_cursor_sent :
  sent_params (trace (snd (fetch_incremental script_get police_api "crimes"
                             (Some "2024-01-01") None
                             (caller_state [Response 200 "[]" (JArr [])]))))
  = [Some {["since" := JStr "2024-01-01"]}].
Proof. vm_compute. reflexivity. Qed.

(** C9 as stated fails on two inputs. An empty cursor [since = ""] is supplied
    but not sent: the request goes out with no parameters. And with [since]
    omitted, a caller whose own parameters hold a ["since"] key has that key
    sent. *)
Lemma since_cursor_counterexample :
  (sent_params (trace (snd (fetch_incremental script_get police_api "crimes"
                              (Some "") None
                              (caller_state [Response 200 "[]" (JArr [])]))))
   = [Some ∅]
   /\ ~ since_key_as_claimed (Some "") (Some ∅))
  /\
  (sent_params (trace (snd (fetch_incremental script_get police_api "crimes"
                              None (Some O)
                              {| world := [Response 200 "[]" (JArr [])];
                                 heap := [ {["since" := JStr "2023-12-31"]} ];
                                 trace := [] |})))
   = [Some {["since" := JStr "2023-12-31"]}]
   /\ ~ since_key_as_claimed None (Some {["since" := JStr "2023-12-31"]})).
Proof.
  split; (split; [vm_compute; reflexivity|]); cbn; discriminate.
Qed.

(** Exhaustion on the second page discards the first page's records. *)
Example exhaustion_discards_partial_result :
  fst (fetch_paginated script_get 5 police_api "crimes" (Some O) "page" 2 None
         (caller_state (Response 200 "" (JArr [crime 1; crime 2]) :: failing_script)))
  = Raised (Exception
      "Failed to fetch data from https://data.police.uk/api/crimes after 3 retries").
Proof. vm_compute. reflexivity. Qed.

(** Eight records served three per page. *)
Lemma fetch_paginated_paging_service_witness :
  fst (fetch_paginated
         (paging_get [crime 1; crime 2; crime 3; crime 4; crime 5; crime 6; crime 7;
                      crime 8])
         9 police_api "crimes" None "page" 3 None
         {| world := tt; heap := []; trace := [] |})
  = Returned [crime 1; crime 2; crime 3; crime 4; crime 5; crime 6; crime 7; crime 8].
Proof.
  apply (fetch_paginated_paging_service
           [crime 1; crime 2; crime 3; crime 4; crime 5; crime 6; crime 7; crime 8]
           police_api "crimes" None 3 9 {| world := tt; heap := []; trace := [] |}).
  - reflexivity.
  - reflexivity.
  - cbn. lia.
Defined.

(** Eight records served three per page, with [max_pages = 0]. *)
Lemma max_pages_zero_is_unbounded_witness :
  fst (fetch_paginated
         (paging_get [crime 1; crime 2; crime 3; crime 4; crime 5; crime 6; crime 7;
                      crime 8])
         9 police_api "crimes" None "page" 3 (Some 0)
         {| world := tt; heap := []; trace := [] |})
  = Returned [crime 1; crime 2; crime 3; crime 4; crime 5; crime 6; crime 7; crime 8].
Proof.
  destruct max_pages_zero_is_unbounded as (_ & _ & _ & _ & Hall).
  apply (Hall [crime 1; crime 2; crime 3; crime 4; crime 5; crime 6; crime 7; crime 8]
           police_api "crimes" None 3 9%nat {| world := tt; heap := []; trace := [] |}).
  - reflexivity.
  - reflexivity.
  - cbn. lia.
Defined.

Example max_pages_zero_fetches_three_pages :
  length (gets (trace (snd (fetch_paginated
                              (paging_get [crime 1; crime 2; crime 3; crime 4; crime 5;
                                           crime 6; crime 7; crime 8])
                              9 police_api "crimes" None "page" 3 (Some 0)
                              {| world := tt; heap := []; trace := [] |}))))
  = 3%nat.
Proof. vm_compute. reflexivity. Qed.

(** A limit of two pages against a service that always has more. *)
Lemma fetch_paginated_page_limit_witness :
  fst (fetch_paginated endless_get 2 police_api "crimes" None "page" 2 (Some 2)
         {| world := tt; heap := []; trace := [] |}) <> OutOfFuel /\
  exists evs,
    trace (snd (fetch_paginated endless_get 2 police_api "crimes" None "page" 2
                  (Some 2) {| world := tt; heap := []; trace := [] |}))
    = trace {| world := tt; heap := []; trace := [] |} ++ evs /\
    (length (pages evs) <= Z.to_nat 2)%nat.
Proof.
  apply (fetch_paginated_page_limit endless_get 2 2 police_api "crimes" None "page" 2
           {| world := tt; heap := []; trace := [] |}).
  - reflexivity.
  - cbn. lia.
Defined.

(** The default policy: five failures cost 0.5 + 1 + 2 + 4 + 8 seconds. *)
Example total_delay_default_policy :
  Qeq (total_delay
         (sleeps (trace (snd (_make_request script_get (new_ingestor "https://x/") "u"
                                None (caller_state []))))))
      (Qmake 31 2).
Proof. vm_compute. reflexivity. Qed.

(** The default policy against a service that fails every attempt: 15.5
    seconds of sleep. *)
Lemma total_backoff_delay_witness :
  exists evs,
    trace (snd (_make_request script_get (new_ingestor "https://x/") "u" None refused))
    = trace refused ++ evs /\
    Qeq (total_delay (sleeps evs)) (Qmake 31 2) /\
    Z.of_nat (length (failures (responses evs)))
    = max_retries (new_ingestor "https://x/").
Proof.
  destruct (total_backoff_delay script_get (new_ingestor "https://x/") "u" None
              refused) as (evs & Htrace & _ & Hexhausted & Hdefault).
  - vm_compute. reflexivity.
  - assert (evs = trace (snd (_make_request script_get (new_ingestor "https://x/") "u"
                                None refused))) as Hevs
      by (symmetry; exact Htrace).
    exists evs. split; [exact Htrace|]. split.
    + apply Hdefault; [reflexivity|]. rewrite Hevs. vm_compute. reflexivity.
    + apply Hexhausted; [vm_compute; reflexivity | vm_compute; discriminate].
Defined.

(** A run with a retry on the second page. *)
Lemma attempts_are_uniform_witness :
  exists evs,
    trace (snd (_make_request script_get police_api crimes_url (Some O)
                  (caller_state three_pages_script)))
    = trace (caller_state three_pages_script) ++ evs /\
    gets evs
    = map (EvGet crimes_url (Some {["date" := JStr "2025-07"]}) 10) (responses evs) /\
    (length (gets evs) <= Z.to_nat (max_retries police_api))%nat /\
    (forall i r, responses evs !! i = Some r -> succeeded r = true ->
       S i = length (responses evs)) /\
    heap (snd (_make_request script_get police_api crimes_url (Some O)
                 (caller_state three_pages_script)))
    = heap (caller_state three_pages_script).
Proof.
  apply (attempts_are_uniform script_get police_api crimes_url (Some O)
           (caller_state three_pages_script)).
Defined.

Lemma no_retries_no_request_witness :
  (forall url, _make_request script_get no_retry_api url (Some O)
                 (caller_state three_pages_script)
               = (Raised (exhausted no_retry_api url), caller_state three_pages_script)) /\
  (forall fuel page_param per_page max_pages,
     exists st',
       fetch_paginated script_get (S fuel) no_retry_api "crimes" (Some O) page_param
         per_page max_pages (caller_state three_pages_script)
       = (Raised (exhausted no_retry_api (base_url no_retry_api +:+ "crimes")), st') /\
       trace st' = trace (caller_state three_pages_script)
                   ++ [EvLog INFO (LogFetchingPage 1 "crimes")] /\
       world st' = world (caller_state three_pages_script)) /\
  (forall since,
     exists st',
       fetch_incremental script_get no_retry_api "crimes" since (Some O)
         (caller_state three_pages_script)
       = (Raised (exhausted no_retry_api (base_url no_retry_api +:+ "crimes")), st') /\
       trace st' = trace (caller_state three_pages_script)
                   ++ [EvLog INFO (LogFetchingIncremental "crimes" since)] /\
       world st' = world (caller_state three_pages_script)).
Proof.
  apply (no_retries_no_request script_get no_retry_api "crimes" (Some O)
           (caller_state three_pages_script)).
  cbn. lia.
Defined.

Lemma pages_requested_in_order_witness :
  exists evs attempts,
    trace (snd (fetch_paginated script_get 3 police_api "crimes" (Some O) "page" 3 None
                  (caller_state three_pages_script)))
    = trace (caller_state three_pages_script) ++ evs /\
    page_logs evs = map (fun i => 1 + Z.of_nat i) (seq 0 (length attempts)) /\
    sent_params evs
    = page_requests (paged_params_of (heap (caller_state three_pages_script)) (Some O)
                       "page" 3) 1 attempts /\
    Forall (fun c => (c <= Z.to_nat (max_retries police_api))%nat) attempts /\
    (length attempts <= 3)%nat.
Proof.
  destruct (pages_requested_in_order script_get 3 police_api "crimes" (Some O) "page" 3
              None (caller_state three_pages_script))
    as (evs & attempts & H1 & H2 & H3 & H4 & H5 & _).
  - cbn. lia.
  - exists evs, attempts.
    split; [exact H1|]. split; [exact H2|]. split; [exact H3|].
    split; [exact H4|exact H5].
Defined.

Example pages_requested_in_order_run :
  page_logs (trace (snd (fetch_paginated script_get 3 police_api "crimes" (Some O) "page"
                           3 None (caller_state three_pages_script))))
  = [1; 2; 3]
  /\ (fun p => p ≫= lookup "page")
       <$> sent_params (trace (snd (fetch_paginated script_get 3 police_api "crimes"
                                      (Some O) "page" 3 None
                                      (caller_state three_pages_script))))
     = [Some (JInt 1); Some (JInt 2); Some (JInt 2); Some (JInt 3)].
Proof. vm_compute. done. Qed.

Lemma pagination_stops_for_a_reason_witness :
  exists evs full last,
    trace (snd (fetch_paginated script_get 3 police_api "crimes" (Some O) "page" 3 None
                  (caller_state three_pages_script)))
    = trace (caller_state three_pages_script) ++ evs /\
    pages evs = full ++ [last] /\
    (forall i data, full !! i = Some data ->
       truthy (unwrap_envelope data) = true /\
       3 <= Z.of_nat (length (page_elements data)) /\
       page_limit_reached None (1 + Z.of_nat i) = false) /\
    (truthy (unwrap_envelope last) = false
     \/ page_limit_reached None (1 + Z.of_nat (length full)) = true
     \/ Z.of_nat (length (page_elements last)) < 3).
Proof.
  apply (pagination_stops_for_a_reason script_get 3 police_api "crimes" (Some O) "page"
           3 None (caller_state three_pages_script)
           [crime 1; crime 2; crime 3; crime 4; crime 5; crime 6; crime 7; crime 8]).
  vm_compute. reflexivity.
Defined.

(** The body [{"results": 5}]. *)
Lemma scalar_page_raises_type_error_witness :
  fst (fetch_paginated_loop script_get 1 police_api "crimes" (Some O) "page" 3 None
         [crime 1; crime 2; crime 3] 2
         (caller_state [Response 200 "" (JObj [("results", JInt 5)])]))
  = Raised (TypeError "'int' object is not iterable") /\
  fst (fetch_incremental script_get police_api "crimes" None (Some O)
         (caller_state [Response 200 "" (JObj [("results", JInt 5)])]))
  = Returned (JInt 5).
Proof.
  destruct (scalar_page_raises_type_error script_get O police_api "crimes" None (Some O)
              "page" 3 None [crime 1; crime 2; crime 3] 2
              (caller_state [Response 200 "" (JObj [("results", JInt 5)])])
              "" (JObj [("results", JInt 5)])) as (H1 & H2 & _).
  - reflexivity.
  - intros p. reflexivity.
  - reflexivity.
  - reflexivity.
  - split; [exact H1 | exact H2].
Defined.

(** The body [{"error": "rate limited", "code": 429}]. *)
Lemma object_without_results_yields_keys_witness :
  fst (fetch_paginated script_get 1 police_api "crimes" (Some O) "page" 3 None
         (caller_state
            [Response 200 "" (JObj [("error", JStr "rate limited"); ("code", JInt 429)])]))
  = Returned (map (fun kv => JStr (fst kv))
                [("error", JStr "rate limited"); ("code", JInt 429)]) /\
  fst (fetch_incremental script_get police_api "crimes" None (Some O)
         (caller_state
            [Response 200 "" (JObj [("error", JStr "rate limited"); ("code", JInt 429)])]))
  = Returned (JObj [("error", JStr "rate limited"); ("code", JInt 429)]).
Proof.
  apply (object_without_results_yields_keys script_get O police_api "crimes" None
           (Some O) "page" 3 None
           (caller_state
              [Response 200 "" (JObj [("error", JStr "rate limited");
                                      ("code", JInt 429)])])
           "" [("error", JStr "rate limited"); ("code", JInt 429)]).
  - reflexivity.
  - intros p. reflexivity.
  - apply (bool_decide_unpack _). vm_compute. exact I.
  - reflexivity.
  - discriminate.
  - reflexivity.
Defined.

Lemma negative_page_limit_is_one_witness :
  fetch_paginated endless_get 9 police_api "crimes" None "page" 2 (Some (-3)) idle
  = fetch_paginated endless_get 9 police_api "crimes" None "page" 2 (Some 1) idle
  /\
  exists evs,
    trace (snd (fetch_paginated endless_get 10 police_api "crimes" None "page" 2
                  (Some (-3)) idle)) = trace idle ++ evs /\
    (length (pages evs) <= 1)%nat.
Proof.
  apply (negative_page_limit_is_one endless_get 9 police_api "crimes" None "page" 2
           (-3) idle).
  reflexivity.
Defined.

Example negative_page_limit_run :
  fst (fetch_paginated endless_get 9 police_api "crimes" None "page" 2 (Some (-3)) idle)
  = Returned [crime 1; crime 2].
Proof. vm_compute. reflexivity. Qed.

Lemma batch_size_not_positive_witness :
  batch_process [crime 1; crime 2; crime 3] (-2)
  = if -2 =? 0
    then Raised (ValueError "range() arg 3 must not be zero")
    else Returned [].
Proof.
  apply (batch_size_not_positive [crime 1; crime 2; crime 3] (-2)). lia.
Defined.

Lemma batch_process_indexing_witness :
  exists batches,
    batch_process (map Z.of_nat (seq 0 107)) 50 = Returned batches /\
    Z.of_nat (length batches) = (Z.of_nat (length (map Z.of_nat (seq 0 107))) + 50 - 1) / 50 /\
    (forall i x, map Z.of_nat (seq 0 107) !! i = Some x ->
       batches !! (i / Z.to_nat 50)%nat
         ≫= (fun batch => batch !! (i mod Z.to_nat 50)%nat) = Some x).
Proof.
  apply (batch_process_indexing (map Z.of_nat (seq 0 107)) 50). reflexivity.
Defined.

Lemma request_budget_witness :
  exists evs,
    trace (snd (fetch_paginated script_get 9 police_api "crimes" (Some O) "page" 3
                  (Some 2) (caller_state three_pages_script)))
    = trace (caller_state three_pages_script) ++ evs /\
    Z.of_nat (length (gets evs)) <= 2 * max_retries police_api.
Proof.
  apply (request_budget script_get 2 9 police_api "crimes" (Some O) "page" 3
           (caller_state three_pages_script)).
  - reflexivity.
  - cbn. lia.
Defined.

(** The script against a service that has 102 readable records... *)
Lemma script_finishes_iff_witness :
  fst (fst (main (fixed_get 102) 20 idle)) = Finished.
Proof.
  apply (proj1 (script_finishes_iff (fixed_get 102) 20 idle
                  (replicate 102 (crime_at "On or near High Street")) _
                  ltac:(vm_compute; reflexivity))).
  intros k Hk. cbn [length] in Hk. rewrite length_replicate in Hk.
  exists (crime_at "On or near High Street"), (JStr "On or near High Street").
  split; [|reflexivity]. apply lookup_replicate_2. lia.
Defined.

(** ... and against one that has 101: the last batch holds a single record. *)
Lemma script_index_error_witness :
  fst (fst (main (fixed_get 101) 20 idle))
  = if (length (replicate 101 (crime_at "On or near High Street")) mod 100 =? 1)%nat
    then Failed (IndexError "list index out of range")
    else Finished.
Proof.
  apply (script_index_error (fixed_get 101) 20 idle
           (replicate 101 (crime_at "On or near High Street"))
           (snd (fetch_paginated (fixed_get 101) 20
                   (new_ingestor "https://data.police.uk/api/")
                   "/api/crimes-street/all-crime" (Some (length (heap idle))) "page" 200
                   (Some 20)
                   {| world := world idle; heap := heap idle ++ [crime_query];
                      trace := trace idle |}))).
  - vm_compute. reflexivity.
  - apply Forall_replicate. by exists (JStr "On or near High Street").
Defined.

Lemma script_budget_witness :
  fst (fst (main (fixed_get 200) 20 idle)) <> Unfinished /\
  exists evs,
    trace (snd (main (fixed_get 200) 20 idle)) = trace idle ++ evs /\
    (length (gets evs) <= 100)%nat.
Proof.
  apply (script_budget (fixed_get 200) 20 idle). lia.
Defined.

Example script_reads_twenty_pages :
  length (gets (trace (snd (main (fixed_get 200) 20 idle)))) = 20%nat
  /\ fst (fst (main (fixed_get 200) 20 idle)) = Finished.
Proof. vm_compute. done. Qed.
